(** * A shallow embedding of [lib_simulation.py]

    The module simulates a single-server queue (a library desk) by a
    discrete-event loop over a priority queue of [(timestamp, kind)] tuples.

    Conventions of the embedding.
    - Python [int] values are [Z]; values that may be Python floats (time
      stamps once a service draw was added, durations, means) are exact
      rationals [Q]: rounding of binary64 arithmetic is not modelled, and
      equalities between such values are stated with [==].
    - The process-wide generator [np.random] is an explicit state: a table
      of raw variates and a cursor; every sampling call reads the entry
      under the cursor and advances it.
    - Exceptions are values of [result]; a [while] loop whose termination
      depends on the drawn numbers takes a fuel argument and signals
      [OutOfFuel] when it is used up. *)

From Stdlib Require Import ZArith QArith Qround Lqa Lia.
From stdpp Require Import base list.

Local Open Scope Z_scope.

(** ** Exceptions *)

Inductive exn : Set :=
| TypeError          (* '<' not supported between instances of EventType *)
| ValueError         (* numpy: lam < 0, lam value too large, scale < 0 *)
| ZeroDivisionError  (* float division by zero *)
| IndexError         (* indexing or popping past the end of a list *)
| OutOfFuel.         (* the loop did not stop within the given fuel *)

Inductive result (A : Type) : Type :=
| Ok (a : A)
| Err (e : exn).
Arguments Ok {A} a.
Arguments Err {A} e.

Definition bind {A B : Type} (m : result A) (k : A -> result B) : result B :=
  match m with
  | Ok a => k a
  | Err e => Err e
  end.

Notation "x <- m ;; k" := (bind m (fun x => k))
  (at level 63, m at next level, right associativity).

(** ** Events *)

Inductive EventType : Set := ARRIVE | FINISH.

Definition EventType_eqb (a b : EventType) : bool :=
  match a, b with
  | ARRIVE, ARRIVE | FINISH, FINISH => true
  | _, _ => false
  end.

#[global] Instance EventType_eq_dec : EqDecision EventType.
Proof. solve_decision. Defined.

(** An event is the Python tuple [(timestamp, kind)]. *)
Abbreviation Event := (Q * EventType)%type (only parsing).

(** [a < b] on two such tuples: the first components are compared with
    [==]; when they differ the answer is [a[0] < b[0]]; when they agree the
    second components are compared with [==] (identity on enum members);
    equal tuples are not less than each other, and differing members are
    compared with [<], which [Enum] does not define. *)
Definition tuple_lt (a b : Event) : result bool :=
  match (fst a ?= fst b)%Q with
  | Lt => Ok true
  | Gt => Ok false
  | Eq => if EventType_eqb (snd a) (snd b) then Ok false else Err TypeError
  end.

(** ** [heapq] on a Python list *)

Definition getitem (heap : list Event) (i : nat) : result Event :=
  match heap !! i with
  | Some x => Ok x
  | None => Err IndexError
  end.

(** [(pos - 1) >> 1] *)
Definition parent (pos : nat) : nat := (pos - 1) / 2.
Arguments parent : simpl never.

(** The [while pos > startpos] loop of [heapq._siftdown]; [pos] strictly
    decreases, so [pos] itself is enough fuel. *)
Fixpoint _siftdown_loop (fuel : nat) (heap : list Event) (newitem : Event)
    (startpos pos : nat) : result (list Event) :=
  if decide (startpos < pos)%nat then
    match fuel with
    | O => Err OutOfFuel
    | S fuel' =>
        let parentpos := parent pos in
        parent <- getitem heap parentpos;;
        lt <- tuple_lt newitem parent;;
        if lt : bool
        then _siftdown_loop fuel' (<[pos := parent]> heap) newitem startpos parentpos
        else Ok (<[pos := newitem]> heap)
    end
  else Ok (<[pos := newitem]> heap).

Definition _siftdown (heap : list Event) (startpos pos : nat) : result (list Event) :=
  newitem <- getitem heap pos;;
  _siftdown_loop pos heap newitem startpos pos.

(** [rightpos = childpos + 1]
    [if rightpos < endpos and not heap[childpos] < heap[rightpos]:]
    [    childpos = rightpos] *)
Definition smaller_child (heap : list Event) (endpos childpos : nat) : result nat :=
  let rightpos := (childpos + 1)%nat in
  if decide (rightpos < endpos)%nat then
    l <- getitem heap childpos;;
    r <- getitem heap rightpos;;
    lt <- tuple_lt l r;;
    Ok (if lt : bool then childpos else rightpos)
  else Ok childpos.

(** The [while childpos < endpos] loop of [heapq._siftup]: the smaller child
    is moved up until a leaf is reached; returns the list and the leaf. *)
Fixpoint _siftup_loop (fuel : nat) (heap : list Event) (endpos pos : nat)
    : result (list Event * nat) :=
  let childpos := (2 * pos + 1)%nat in
  if decide (childpos < endpos)%nat then
    match fuel with
    | O => Err OutOfFuel
    | S fuel' =>
        childpos <- smaller_child heap endpos childpos;;
        c <- getitem heap childpos;;
        _siftup_loop fuel' (<[pos := c]> heap) endpos childpos
    end
  else Ok (heap, pos).

Definition _siftup (heap : list Event) (pos : nat) : result (list Event) :=
  let endpos := length heap in
  let startpos := pos in
  newitem <- getitem heap pos;;
  leaf <- _siftup_loop endpos heap endpos pos;;
  let '(heap, pos) := leaf in
  _siftdown (<[pos := newitem]> heap) startpos pos.

Definition heappush (heap : list Event) (item : Event) : result (list Event) :=
  _siftdown (heap ++ [item]) 0 (length heap).

Definition heappop (heap : list Event) : result (Event * list Event) :=
  match last heap with
  | None => Err IndexError
  | Some lastelt =>
      let heap := take (length heap - 1) heap in
      match heap with
      | [] => Ok (lastelt, heap)
      | returnitem :: _ =>
          heap <- _siftup (<[0%nat := lastelt]> heap) 0;;
          Ok (returnitem, heap)
      end
  end.

(** [queue.PriorityQueue]: [put] is [heappush], [get] is [heappop]. *)
Abbreviation PriorityQueue := (list Event) (only parsing).
Definition pq_put (q : PriorityQueue) (item : Event) : result PriorityQueue :=
  heappush q item.
Definition pq_get (q : PriorityQueue) : result (Event * PriorityQueue) :=
  heappop q.
Definition pq_empty (q : PriorityQueue) : bool :=
  match q with [] => true | _ => false end.

(** ** The random generator *)

(** One raw entry of the generator: what [poisson] would return for a
    positive mean, and the standard exponential variate as a fraction. *)
Record Variate : Set := {
  v_poisson : N;
  v_exp_num : N;
  v_exp_den : positive;
}.

Record RandomState : Type := {
  table : nat -> Variate;
  cursor : nat;
}.

Definition advance (g : RandomState) : RandomState :=
  {| table := table g; cursor := S (cursor g) |}.

Definition current (g : RandomState) : Variate := table g (cursor g).

(** Largest mean accepted by the legacy [poisson] sampler where a C [long]
    has 64 bits: the binary64 value of [2^63 - 10 * sqrt(2^63)]. *)
Definition POISSON_LAM_MAX : Z := 9223372006484770816.

(** [np.random.poisson(lam)]: a non-negative integer; [0] when [lam = 0]. *)
Definition np_random_poisson (lam : Z) (g : RandomState) : result (Z * RandomState) :=
  if (lam <? 0) || (POISSON_LAM_MAX <? lam) then Err ValueError
  else Ok (if lam =? 0 then 0 else Z.of_N (v_poisson (current g)), advance g).

(** [np.random.exponential(scale)]: [scale] times a standard variate. *)
Definition np_random_exponential (scale : Z) (g : RandomState) : result (Q * RandomState) :=
  if scale <? 0 then Err ValueError
  else
    let v := current g in
    Ok ((inject_Z scale * (Z.of_N (v_exp_num v) # v_exp_den v))%Q, advance g).

(** ** Floating-point results that may be [nan] *)

Inductive npfloat : Type :=
| NaN
| Fin (q : Q).

(** [x == y] on two such values: [nan] is equal to nothing. *)
Definition npfloat_eq (x y : npfloat) : Prop :=
  match x, y with
  | Fin p, Fin q => (p == q)%Q
  | _, _ => False
  end.

Definition Qsum (l : list Q) : Q := foldr Qplus 0%Q l.

(** [np.mean] of a Python list: [nan] (and a warning) on the empty list,
    [nan] when an element is [nan]. *)
Fixpoint finite_values (l : list npfloat) : option (list Q) :=
  match l with
  | [] => Some []
  | NaN :: _ => None
  | Fin q :: l' =>
      match finite_values l' with
      | Some qs => Some (q :: qs)
      | None => None
      end
  end.

Definition np_mean (l : list npfloat) : npfloat :=
  match l, finite_values l with
  | _ :: _, Some qs => Fin (Qsum qs / inject_Z (Z.of_nat (length qs)))
  | _, _ => NaN
  end.

(** ** The class [LibSimulation] *)

Record LibSimulation : Set := {
  time : Z;
  _person_delay : Z;
  _service_delay : Z;
}.

(** [int(x)] on a number: truncation towards zero. *)
Definition int (x : Q) : Z := Z.quot (Qnum x) (Zpos (Qden x)).

Definition __init__ (time person_mean_delay service_mean_delay : Q) : LibSimulation :=
  {| time := int (time * 3600);
     _person_delay := int (person_mean_delay * 60);
     _service_delay := int (service_mean_delay * 60) |}.

(** *** [_generate_arrives] *)

Fixpoint _generate_arrives_loop (fuel : nat) (self : LibSimulation)
    (actual_time : Z) (arrives : PriorityQueue) (g : RandomState)
    : result (PriorityQueue * RandomState) :=
  if actual_time <? time self then
    match fuel with
    | O => Err OutOfFuel
    | S fuel' =>
        arrives <- pq_put arrives (inject_Z actual_time, ARRIVE);;
        draw <- np_random_poisson (_person_delay self) g;;
        let '(gap, g) := draw in
        _generate_arrives_loop fuel' self (actual_time + gap) arrives g
    end
  else Ok (arrives, g).

Definition _generate_arrives (fuel : nat) (self : LibSimulation) (g : RandomState)
    : result (PriorityQueue * RandomState) :=
  draw <- np_random_poisson (_person_delay self) g;;
  let '(actual_time, g) := draw in
  _generate_arrives_loop fuel self actual_time [] g.

(** *** [simulate_day] *)

(** The local variables of [simulate_day], and the generator state. *)
Record DayState : Type := {
  people_awaiting_time : list Q;
  free_worker : bool;
  actual_time : Q;
  total_articles : Z;
  waiting_persons : list Q;
  events : PriorityQueue;
  number_waiting_persons_in_time : list (nat * Q);
  np_random : RandomState;
}.

(** The dictionary keeps its keys in insertion order, the order in which
    the final loop over [items()] adds the products up.
    [if k in d: d[k] += v  else: d[k] = v]. *)
Fixpoint dict_add (d : list (nat * Q)) (k : nat) (v : Q) : list (nat * Q) :=
  match d with
  | [] => [(k, v)]
  | (k', v') :: d' =>
      if decide (k' = k) then (k', (v' + v)%Q) :: d'
      else (k', v') :: dict_add d' k v
  end.

Definition is_ARRIVE (k : EventType) : bool := EventType_eqb k ARRIVE.
Definition is_FINISH (k : EventType) : bool := EventType_eqb k FINISH.

(** Lines 86-104: account for the time up to [event], then apply it to
    the waiting line and to the worker; [events] is the queue without it. *)
Definition account_event (s : DayState) (event : Event) (events : PriorityQueue)
    : DayState :=
  let transcur_time := (fst event - actual_time s)%Q in
  let actual_time := fst event in
  let waiting_person_count := length (waiting_persons s) in
  {| people_awaiting_time := people_awaiting_time s;
     free_worker :=
       if is_FINISH (snd event) then true else free_worker s;
     actual_time := actual_time;
     total_articles :=
       if free_worker s
       then total_articles s + Qfloor (transcur_time * 22 / 3600)
       else total_articles s;
     waiting_persons :=
       if is_ARRIVE (snd event) then waiting_persons s ++ [fst event]
       else waiting_persons s;
     events := events;
     number_waiting_persons_in_time :=
       dict_add (number_waiting_persons_in_time s) waiting_person_count transcur_time;
     np_random := np_random s |}.

(** Lines 84-104: take the next event and account for it. *)
Definition handle_event (s : DayState) : result DayState :=
  got <- pq_get (events s);;
  let '(event, events) := got in
  Ok (account_event s event events).

(** Lines 108-116 once the draw is made and the end of service is queued:
    [person] leaves the line, which becomes [waiting]. *)
Definition start_service (s : DayState) (person : Q) (waiting : list Q)
    (events : PriorityQueue) (g : RandomState) : DayState :=
  {| people_awaiting_time :=
       people_awaiting_time s ++ [(actual_time s - person)%Q];
     free_worker := false;
     actual_time := actual_time s;
     total_articles := total_articles s;
     waiting_persons := waiting;
     events := events;
     number_waiting_persons_in_time := number_waiting_persons_in_time s;
     np_random := g |}.

(** Lines 106-116: a free worker takes the person at the head of the line
    and the end of the service is scheduled. *)
Definition serve_next (self : LibSimulation) (s : DayState) : result DayState :=
  if free_worker s then
    match waiting_persons s with
    | [] => Ok s
    | person :: waiting =>
        draw <- np_random_exponential (_service_delay self) (np_random s);;
        let '(delay, g) := draw in
        events <- pq_put (events s) ((delay + actual_time s)%Q, FINISH);;
        Ok (start_service s person waiting events g)
    end
  else Ok s.

(** One pass through the body of [while not events.empty()]. *)
Definition day_iteration (self : LibSimulation) (s : DayState) : result DayState :=
  s <- handle_event s;;
  serve_next self s.

Fixpoint day_loop (fuel : nat) (self : LibSimulation) (s : DayState) : result DayState :=
  if pq_empty (events s) then Ok s
  else
    match fuel with
    | O => Err OutOfFuel
    | S fuel' =>
        s <- day_iteration self s;;
        day_loop fuel' self s
    end.

Definition count_kind (k : EventType) (q : list Event) : nat :=
  length (filter (fun e => snd e = k) q).

(** Every pass lowers this number by one, so it bounds the passes left. *)
Definition passes_left (s : DayState) : nat :=
  2 * count_kind ARRIVE (events s) + count_kind FINISH (events s)
  + length (waiting_persons s).

Definition day_start (arrives : PriorityQueue) (g : RandomState) : DayState :=
  {| people_awaiting_time := [];
     free_worker := true;
     actual_time := 0;
     total_articles := 0;
     waiting_persons := [];
     events := arrives;
     number_waiting_persons_in_time := [];
     np_random := g |}.

(** Lines 75-116: the state when the event loop is left. *)
Definition run_day (fuel : nat) (self : LibSimulation) (g : RandomState)
    : result DayState :=
  gen <- _generate_arrives fuel self g;;
  let '(arrives, g) := gen in
  let s := day_start arrives g in
  day_loop (passes_left s) self s.

(** Lines 118-123. [sum_t / actual_time] is evaluated first and raises on a
    zero divisor. *)
Definition weighted_sum (d : list (nat * Q)) : Q :=
  fold_left (fun sum_t it => (sum_t + inject_Z (Z.of_nat (fst it)) * snd it)%Q) d 0%Q.

Definition day_summary (s : DayState) : result (Q * Z * npfloat) :=
  let sum_t := weighted_sum (number_waiting_persons_in_time s) in
  if Qeq_bool (actual_time s) 0 then Err ZeroDivisionError
  else Ok ((sum_t / actual_time s)%Q, total_articles s,
           np_mean (map Fin (people_awaiting_time s))).

Definition simulate_day (fuel : nat) (self : LibSimulation) (g : RandomState)
    : result (Q * Z * npfloat * RandomState) :=
  s <- run_day fuel self g;;
  r <- day_summary s;;
  Ok (r, np_random s).

(** *** [simulate] *)

Fixpoint simulate_loop (days : nat) (fuel : nat) (self : LibSimulation)
    (people_await_time : list npfloat) (line_length : list Q) (articles : list Z)
    (g : RandomState)
    : result (list npfloat * list Q * list Z * RandomState) :=
  match days with
  | O => Ok (people_await_time, line_length, articles, g)
  | S days' =>
      day <- simulate_day fuel self g;;
      let '(day_line_length, day_articles, day_awaiting_time_mean, g) := day in
      simulate_loop days' fuel self
        (people_await_time ++ [day_awaiting_time_mean])
        (line_length ++ [day_line_length])
        (articles ++ [day_articles]) g
  end.

Definition simulate (fuel : nat) (self : LibSimulation) (days : Z) (g : RandomState)
    : result (npfloat * npfloat * npfloat * RandomState) :=
  lists <- simulate_loop (Z.to_nat days) fuel self [] [] [] g;;
  let '(people_await_time, line_length, articles, g) := lists in
  Ok (np_mean people_await_time,
      np_mean (map Fin line_length),
      np_mean (map (fun a => Fin (inject_Z a)) articles),
      g).

(** * Invariants and specification predicates *)

Definition le_ev (a b : Event) : Prop := (fst a <= fst b)%Q.

Definition heap_ok (h : list Event) : Prop :=
  forall i x y, (0 < i)%nat -> h !! i = Some x -> h !! parent i = Some y -> le_ev y x.

(** The three facts that hold while [_siftdown] carries [newitem] towards
    the root with the hole at [pos]: the heap order holds on every edge
    except the one above [pos]; what is above [pos] is below its children;
    and [newitem] is below the children of [pos]. *)
Record hole_up (h : list Event) (newitem : Event) (pos : nat) : Prop := {
  hu_edges : forall i x y,
    (0 < i)%nat -> i <> pos -> h !! i = Some x -> h !! parent i = Some y -> le_ev y x;
  hu_grand : forall c x y,
    (0 < pos)%nat -> (0 < c)%nat -> parent c = pos ->
    h !! c = Some x -> h !! parent pos = Some y -> le_ev y x;
  hu_new : forall c x,
    (0 < c)%nat -> parent c = pos -> h !! c = Some x -> le_ev newitem x;
}.

(** Two events of [h] that the tuple comparison cannot order: the same
    time stamp and different kinds. *)
Definition clash (h : list Event) : Prop :=
  exists a b, a ∈ h /\ b ∈ h /\ (fst a == fst b)%Q /\ snd a <> snd b.

(** What a sift does: it leaves a heap with the same elements, and it fails
    only on a comparison of two elements that clash. *)
Definition sifted (h0 : list Event) (r : result (list Event)) : Prop :=
  match r with
  | Ok h' => heap_ok h' /\ h' ≡ₚ h0
  | Err e => e = TypeError /\ clash h0
  end.

(** The two facts that hold while [_siftup] moves the hole at [pos] down:
    the heap order holds on every edge except those below [pos], and what
    is above [pos] is below its children. *)
Record hole_down (h : list Event) (pos : nat) : Prop := {
  hd_edges : forall i x y,
    (0 < i)%nat -> parent i <> pos ->
    h !! i = Some x -> h !! parent i = Some y -> le_ev y x;
  hd_grand : forall c x y,
    (0 < pos)%nat -> (0 < c)%nat -> parent c = pos ->
    h !! c = Some x -> h !! parent pos = Some y -> le_ev y x;
}.

Definition sunk (h : list Event) (pos : nat)
    (r : result (list Event * nat)) : Prop :=
  match r with
  | Ok (h', pos') =>
      hole_down h' pos' /\ length h' = length h /\
      (pos' < length h)%nat /\ (length h <= 2 * pos' + 1)%nat /\
      forall x, <[pos' := x]> h' ≡ₚ <[pos := x]> h
  | Err e => e = TypeError /\ forall x, clash (<[pos := x]> h)
  end.

(** [heappop] on a heap returns a least element and leaves a heap of the
    others; it can fail only on a comparison, or on an empty list. *)
Definition popped (h : list Event) (r : result (Event * list Event)) : Prop :=
  match r with
  | Ok (x, h') =>
      heap_ok h' /\ h ≡ₚ x :: h' /\ forall y, y ∈ h -> le_ev x y
  | Err e => (e = TypeError /\ clash h) \/ (h = [] /\ e = IndexError)
  end.

(** What the sampling call at generator state [g] adds to the clock of
    [_generate_arrives]. *)
Definition gap (self : LibSimulation) (g : RandomState) : Z :=
  if _person_delay self =? 0 then 0 else Z.of_N (v_poisson (current g)).

Fixpoint advance_n (n : nat) (g : RandomState) : RandomState :=
  match n with
  | O => g
  | S n' => advance_n n' (advance g)
  end.

(** The value of [actual_time] after [k] more passes of the loop of
    [_generate_arrives], from clock [t] and generator state [g]. *)
Fixpoint candidate (self : LibSimulation) (t : Z) (g : RandomState) (k : nat) : Z :=
  match k with
  | O => t
  | S k' => candidate self (t + gap self g) (advance g) k'
  end.

(** The [k]-th time stamp that [_generate_arrives] considers. *)
Definition arrival (self : LibSimulation) (g : RandomState) (k : nat) : Z :=
  candidate self (gap self g) (advance g) k.

Definition valid_mean (lam : Z) : Prop := 0 <= lam <= POISSON_LAM_MAX.

Definition arrive_at (t : Z) : Event := (inject_Z t, ARRIVE).

(** A queue as [_generate_arrives] builds it: arrivals only, none after [t]. *)
Definition arrivals_upto (t : Z) (h : list Event) : Prop :=
  Forall (fun e => snd e = ARRIVE /\ (fst e <= inject_Z t)%Q) h.

(** The queue of the first [n] arrivals, in the order of the draws. *)
Definition arrival_queue (self : LibSimulation) (g : RandomState) (n : nat)
    : list Event :=
  map (fun k => arrive_at (arrival self g k)) (seq 0 n).

(** What holds of the local variables of [simulate_day] whenever the loop
    test is evaluated, and between the two halves of the loop body. *)
Record day_inv (self : LibSimulation) (s : DayState) : Prop := {
  inv_heap : heap_ok (events s);
  inv_future : Forall (fun e => (actual_time s <= fst e)%Q) (events s);
  inv_arrive :
    Forall (fun e => snd e = ARRIVE -> (fst e < inject_Z (time self))%Q) (events s);
  inv_finish : count_kind FINISH (events s) = if free_worker s then 0%nat else 1%nat;
  inv_hist : (Qsum (map snd (number_waiting_persons_in_time s)) == actual_time s)%Q;
  inv_articles : total_articles s <= Qfloor (actual_time s * 22 / 3600);
}.

(** At the loop test nobody waits in front of a free worker. *)
Definition served_if_free (s : DayState) : Prop :=
  free_worker s = true -> waiting_persons s = [].

(** At the loop test either somebody has been served, or no event has
    been processed yet. *)
Definition served_or_fresh (s : DayState) : Prop :=
  people_awaiting_time s <> [] \/
  (actual_time s = 0%Q /\ free_worker s = true /\ waiting_persons s = [] /\
   Forall (fun e => snd e = ARRIVE) (events s)).

(** The loop of [simulate_day] as a relation between the states at two
    evaluations of its test. *)
Inductive day_steps (self : LibSimulation) : DayState -> DayState -> Prop :=
| day_steps_refl s : day_steps self s s
| day_steps_next s s' s'' :
    pq_empty (events s) = false ->
    day_iteration self s = Ok s' ->
    day_steps self s' s'' ->
    day_steps self s s''.

(** The states that a day started by [run_day] goes through. *)
Definition day_reaches (self : LibSimulation) (fuel : nat) (g : RandomState)
    (s : DayState) : Prop :=
  exists arrives g',
    _generate_arrives fuel self g = Ok (arrives, g') /\
    day_steps self (day_start arrives g') s.

(** The end of service that [serve_next] schedules from state [s]. *)
Definition service_end (self : LibSimulation) (s : DayState) : Event :=
  ((inject_Z (_service_delay self)
    * (Z.of_N (v_exp_num (current (np_random s))) # v_exp_den (current (np_random s)))
    + actual_time s)%Q, FINISH).

(** What [serve_next] does, case by case. *)
Inductive served (self : LibSimulation) (s : DayState)
    : result DayState -> Prop :=
| served_none :
    free_worker s = false \/ waiting_persons s = [] ->
    served self s (Ok s)
| served_start person waiting q :
    free_worker s = true ->
    waiting_persons s = person :: waiting ->
    0 <= _service_delay self ->
    heap_ok q ->
    q ≡ₚ events s ++ [service_end self s] ->
    served self s (Ok (start_service s person waiting q (advance (np_random s))))
| served_bad_scale :
    free_worker s = true ->
    waiting_persons s <> [] ->
    _service_delay self < 0 ->
    served self s (Err ValueError)
| served_clash :
    free_worker s = true ->
    waiting_persons s <> [] ->
    0 <= _service_delay self ->
    clash (events s ++ [service_end self s]) ->
    served self s (Err TypeError).

(** ** Concrete days *)

Definition variate (p n : N) (d : positive) : Variate :=
  {| v_poisson := p; v_exp_num := n; v_exp_den := d |}.

(** A generator that returns the listed variates, then a gap of a day. *)
Definition generator_of (l : list Variate) : RandomState :=
  {| table := fun n => nth n l (variate 86400 1 1); cursor := 0 |}.

(** One hour, an arrival every ten minutes, five minutes of service. *)
Definition desk : LibSimulation := __init__ 1 10 5.

(** Two hours, an arrival every hour, five minutes of service. *)
Definition long_desk : LibSimulation := __init__ 2 60 5.

(** One hour, an arrival every two hours, five minutes of service. *)
Definition quiet_desk : LibSimulation := __init__ 1 120 5.

(** The first arrival would come after two hours. *)
Definition no_arrival : RandomState := generator_of [variate 7200 0 1].

(** One arrival at 1800 s, served for 24 * 300 s = 7200 s. *)
Definition one_long_service : RandomState :=
  generator_of [variate 1800 0 1; variate 5000 0 1; variate 0 24 1].

(** Two arrivals at 5 s (a gap of zero), served for 600 s and 900 s. *)
Definition tied_arrivals : RandomState :=
  generator_of [variate 5 0 1; variate 0 0 1; variate 5000 0 1;
                variate 0 2 1; variate 0 3 1].

(** One arrival at 3600 s, served for 300 / 2 = 150 s. *)
Definition short_service : RandomState :=
  generator_of [variate 3600 0 1; variate 5000 0 1; variate 0 1 2].



(** ** Further facts about the states of a day *)

(** A list of time stamps in which no entry is before an earlier one. *)
Definition nondecreasing (l : list Q) : Prop :=
  forall i j a b, (i <= j)%nat -> l !! i = Some a -> l !! j = Some b -> (a <= b)%Q.

(** What holds, besides [day_inv], of the local variables of a day with [n]
    arrivals that started from generator state [g0]: at the loop test and
    between the two halves of the loop body. *)
Record day_facts (self : LibSimulation) (n : nat) (g0 : RandomState)
    (s : DayState) : Prop := {
  df_clock : (0 <= actual_time s)%Q;
  df_line_sorted : nondecreasing (waiting_persons s);
  df_line_past : Forall (fun p => (p <= actual_time s)%Q) (waiting_persons s);
  df_waits : Forall (fun w => (0 <= w)%Q) (people_awaiting_time s);
  df_first : forall w, people_awaiting_time s !! 0%nat = Some w -> (w == 0)%Q;
  df_fresh_line :
    people_awaiting_time s = [] ->
    Forall (fun p => (p == actual_time s)%Q) (waiting_persons s);
  df_count :
    (length (people_awaiting_time s) + length (waiting_persons s)
     + count_kind ARRIVE (events s) = n)%nat;
  df_draws :
    np_random s = advance_n (S n + length (people_awaiting_time s)) g0;
  df_keys : NoDup (map fst (number_waiting_persons_in_time s));
  df_buckets :
    Forall (fun kv => (fst kv < n)%nat /\ (0 <= snd kv)%Q)
           (number_waiting_persons_in_time s);
  df_pending :
    Forall (fun e => (inject_Z (arrival self g0 0) <= fst e)%Q) (events s);
  df_started :
    people_awaiting_time s <> [] \/ waiting_persons s <> [] ->
    (inject_Z (arrival self g0 0) <= actual_time s)%Q;
  df_articles : 0 <= total_articles s;
  df_horizon :
    0 <= time self ->
    total_articles s <= Qfloor (inject_Z (time self) * 22 / 3600);
}.


(** A floating-point result that is a number, and not a negative one. *)
Definition finite_nonneg (x : npfloat) : Prop :=
  exists q, x = Fin q /\ (0 <= q)%Q.

(** The service discipline, for a day with [n] arrivals that started from
    generator state [g0]: the line holds the arrivals that follow those
    already served, in the order of the draws; the arrivals still in the
    event queue are the later ones; and the [i]-th waiting time recorded
    is counted from the [i]-th arrival, the services starting one after
    the other. *)
Record fifo_inv (self : LibSimulation) (n : nat) (g0 : RandomState)
    (s : DayState) : Prop := {
  ff_line : forall i x,
    waiting_persons s !! i = Some x ->
    x = inject_Z (arrival self g0 (length (people_awaiting_time s) + i));
  ff_pending :
    filter (fun e => snd e = ARRIVE) (events s) ≡ₚ
    map (fun k => arrive_at (arrival self g0 k))
        (seq (length (people_awaiting_time s) + length (waiting_persons s))
             (n - (length (people_awaiting_time s) + length (waiting_persons s))));
  ff_started : forall i x,
    people_awaiting_time s !! i = Some x ->
    (x + inject_Z (arrival self g0 i) <= actual_time s)%Q;
  ff_order : forall i j x y,
    (i <= j)%nat ->
    people_awaiting_time s !! i = Some x ->
    people_awaiting_time s !! j = Some y ->
    (x + inject_Z (arrival self g0 i) <= y + inject_Z (arrival self g0 j))%Q;
}.



(** * Evaluation on concrete inputs *)

Ltac evaluates := vm_compute; reflexivity.

Example tuple_lt_earlier : tuple_lt (3%Q, FINISH) (5%Q, ARRIVE) = Ok true.
Proof. evaluates. Qed.

Example tuple_lt_same_kind : tuple_lt (5%Q, ARRIVE) (5%Q, ARRIVE) = Ok false.
Proof. evaluates. Qed.

Example tuple_lt_int_float : tuple_lt (5%Q, ARRIVE) (10 # 2, FINISH) = Err TypeError.
Proof. evaluates. Qed.

Example heappush_moves_up :
  heappush [(2%Q, ARRIVE); (4%Q, ARRIVE); (6%Q, ARRIVE)] (1%Q, FINISH)
  = Ok [(1%Q, FINISH); (2%Q, ARRIVE); (6%Q, ARRIVE); (4%Q, ARRIVE)].
Proof. evaluates. Qed.

Example heappop_least :
  heappop [(1%Q, FINISH); (2%Q, ARRIVE); (6%Q, ARRIVE); (4%Q, ARRIVE)]
  = Ok ((1%Q, FINISH), [(2%Q, ARRIVE); (4%Q, ARRIVE); (6%Q, ARRIVE)]).
Proof. evaluates. Qed.

Example heappop_empty : heappop [] = Err IndexError.
Proof. evaluates. Qed.

(** A tie between an arrival and an end of service is not noticed as long
    as the two events are not compared. *)
Example heappush_tie_not_compared :
  heappush [(1%Q, ARRIVE); (2%Q, ARRIVE); (5%Q, ARRIVE)] (5%Q, FINISH)
  = Ok [(1%Q, ARRIVE); (2%Q, ARRIVE); (5%Q, ARRIVE); (5%Q, FINISH)].
Proof. evaluates. Qed.

Example dict_add_new_key : dict_add [(0%nat, 5%Q)] 1 600%Q = [(0%nat, 5%Q); (1%nat, 600%Q)].
Proof. evaluates. Qed.

Example dict_add_old_key : dict_add [(0%nat, 5%Q); (1%nat, 600%Q)] 0 900%Q
  = [(0%nat, 905%Q); (1%nat, 600%Q)].
Proof. evaluates. Qed.

Example np_mean_empty : np_mean [] = NaN.
Proof. evaluates. Qed.

Example init_converts : __init__ (1 # 2) (5 # 2) (-1 # 2)
  = {| time := 1800; _person_delay := 150; _service_delay := -30 |}.
Proof. evaluates. Qed.

(** One arrival at time zero and a service of 300 s: the person does not
    wait, the end of service is queued at 300 s, and the queue is empty
    once both events are processed. *)
Example single_customer :
  let g := generator_of [variate 0 1 1] in
  let s0 := day_start [(0%Q, ARRIVE)] g in
  exists s1 s2,
    day_iteration desk s0 = Ok s1 /\
    people_awaiting_time s1 = [0%Q] /\ events s1 = [(300%Q, FINISH)] /\
    day_iteration desk s1 = Ok s2 /\
    events s2 = [] /\ free_worker s2 = true /\ actual_time s2 = 300%Q.
Proof.
  eexists. eexists. split; [evaluates|]. split; [reflexivity|].
  split; [reflexivity|]. split; [evaluates|]. repeat split; reflexivity.
Qed.

Example simulate_day_one_long_service :
  exists g', simulate_day 10 desk one_long_service = Ok (0 # 9000, 11, Fin 0, g').
Proof. eexists. evaluates. Qed.

(** * Properties *)

(** ** Comparison of events *)

Lemma le_ev_refl a : le_ev a a.
Proof. unfold le_ev. apply Qle_refl. Qed.

Lemma le_ev_trans a b c : le_ev a b -> le_ev b c -> le_ev a c.
Proof. unfold le_ev. apply Qle_trans. Qed.

Lemma EventType_eqb_eq a b : EventType_eqb a b = true <-> a = b.
Proof. destruct a, b; simpl; split; congruence. Qed.

Lemma tuple_lt_true a b : tuple_lt a b = Ok true -> (fst a < fst b)%Q.
Proof.
  unfold tuple_lt. destruct (Qcompare_spec (fst a) (fst b)); try discriminate; auto.
  destruct EventType_eqb; discriminate.
Qed.

Lemma tuple_lt_false a b : tuple_lt a b = Ok false -> le_ev b a.
Proof.
  unfold tuple_lt, le_ev.
  destruct (Qcompare_spec (fst a) (fst b)) as [H|H|H]; try discriminate; intros _.
  - rewrite H. apply Qle_refl.
  - apply Qlt_le_weak, H.
Qed.

Lemma tuple_lt_Err a b e :
  tuple_lt a b = Err e ->
  e = TypeError /\ (fst a == fst b)%Q /\ snd a <> snd b.
Proof.
  unfold tuple_lt.
  destruct (Qcompare_spec (fst a) (fst b)) as [H|H|H]; try discriminate.
  destruct (EventType_eqb (snd a) (snd b)) eqn:E; try discriminate.
  intros [= <-]. repeat split; auto.
  intros Heq. apply EventType_eqb_eq in Heq. congruence.
Qed.

(** ** The heap invariant of [heapq] *)

Lemma parent_lt i : (0 < i)%nat -> (parent i < i)%nat.
Proof.
  intros Hi. unfold parent.
  apply Nat.Div0.div_lt_upper_bound. lia.
Qed.

Lemma parent_children i p :
  (0 < i)%nat -> parent i = p <-> (i = 2 * p + 1 \/ i = 2 * p + 2)%nat.
Proof.
  intros Hi. unfold parent. split.
  - intros <-.
    pose proof (Nat.div_mod_eq (i - 1) 2) as E.
    pose proof (Nat.mod_upper_bound (i - 1) 2 ltac:(lia)) as B.
    lia.
  - intros [-> | ->].
    + replace (2 * p + 1 - 1)%nat with (p * 2)%nat by lia.
      apply Nat.div_mul. lia.
    + replace (2 * p + 2 - 1)%nat with (1 + p * 2)%nat by lia.
      rewrite Nat.div_add by lia. reflexivity.
Qed.

Lemma getitem_Ok h i x : getitem h i = Ok x <-> h !! i = Some x.
Proof. unfold getitem. destruct (h !! i); split; congruence. Qed.

Lemma getitem_lt h i : (i < length h)%nat -> exists x, getitem h i = Ok x /\ h !! i = Some x.
Proof.
  intros Hi. destruct (lookup_lt_is_Some_2 h i Hi) as [x Hx].
  exists x. split; auto. apply getitem_Ok, Hx.
Qed.

Lemma insert_move_perm (h : list Event) i j x p :
  i <> j -> (i < length h)%nat -> h !! j = Some p ->
  <[j := x]> (<[i := p]> h) ≡ₚ <[i := x]> h.
Proof.
  intros Hij Hi Hj.
  rewrite <- (list_insert_insert_eq h i p x).
  apply Permutation_insert_swap.
  - apply list_lookup_insert_eq, Hi.
  - rewrite list_lookup_insert_ne by auto. exact Hj.
Qed.

#[global] Instance clash_Permutation : Proper ((≡ₚ) ==> iff) clash.
Proof.
  assert (Himp : forall h k, h ≡ₚ k -> clash h -> clash k).
  { intros h k Hp (a & b & Ha & Hb & Heq & Hk).
    exists a, b. rewrite <- Hp. auto. }
  intros h k Hp. split; apply Himp; [exact Hp|symmetry; exact Hp].
Qed.

Lemma clash_submseteq h k : h ⊆+ k -> clash h -> clash k.
Proof.
  intros Hsub (a & b & Ha & Hb & Heq & Hk).
  exists a, b. repeat split; auto; eapply elem_of_submseteq; eauto.
Qed.

(** The root of a heap is a least element. *)
Lemma heap_ok_root h r :
  heap_ok h -> h !! 0%nat = Some r -> forall i x, h !! i = Some x -> le_ev r x.
Proof.
  intros Hh Hr i. induction i as [i IH] using lt_wf_ind. intros x Hx.
  destruct (decide (i = 0)%nat) as [->|Hi].
  - rewrite Hr in Hx. injection Hx as <-. apply le_ev_refl.
  - assert (Hp : (parent i < i)%nat) by (apply parent_lt; lia).
    destruct (lookup_lt_is_Some_2 h (parent i)) as [y Hy].
    { apply lookup_lt_Some in Hx. lia. }
    eapply le_ev_trans; [apply (IH _ Hp _ Hy)|].
    apply (Hh i); auto. lia.
Qed.

Lemma hole_up_fill h newitem pos :
  hole_up h newitem pos ->
  (forall y, (0 < pos)%nat -> h !! parent pos = Some y -> le_ev y newitem) ->
  heap_ok (<[pos := newitem]> h).
Proof.
  intros [HA HG HN] Hp i x y Hi Hx Hy.
  destruct (decide (i = pos)) as [->|Hne].
  - rewrite list_lookup_insert_ne in Hy by (pose proof (parent_lt pos Hi); lia).
    apply lookup_lt_Some in Hx as Hlen. rewrite length_insert in Hlen.
    rewrite list_lookup_insert_eq in Hx by auto. injection Hx as <-.
    apply Hp; auto.
  - rewrite list_lookup_insert_ne in Hx by auto.
    destruct (decide (parent i = pos)) as [Hpi|Hpi].
    + rewrite Hpi in Hy. apply lookup_lt_Some in Hy as Hlen.
      rewrite length_insert in Hlen.
      rewrite list_lookup_insert_eq in Hy by auto. injection Hy as <-.
      eapply HN; eauto.
    + rewrite list_lookup_insert_ne in Hy by auto. eapply HA; eauto.
Qed.

Lemma hole_up_step h newitem pos p :
  (0 < pos)%nat -> (pos < length h)%nat ->
  hole_up h newitem pos ->
  h !! parent pos = Some p ->
  (fst newitem < fst p)%Q ->
  hole_up (<[pos := p]> h) newitem (parent pos).
Proof.
  intros Hpos Hlen [HA HG HN] Hp Hlt.
  pose proof (parent_lt pos Hpos) as Hpp.
  split.
  - intros i x y Hi Hne Hx Hy.
    destruct (decide (i = pos)) as [->|Hip].
    + rewrite list_lookup_insert_eq in Hx by auto. injection Hx as <-.
      rewrite list_lookup_insert_ne in Hy by lia.
      rewrite Hp in Hy. injection Hy as <-. apply le_ev_refl.
    + rewrite list_lookup_insert_ne in Hx by auto.
      destruct (decide (parent i = pos)) as [Hpi|Hpi].
      * rewrite Hpi in Hy.
        rewrite list_lookup_insert_eq in Hy by auto. injection Hy as <-.
        eapply HG; eauto.
      * rewrite list_lookup_insert_ne in Hy by auto. eapply HA; eauto.
  - intros c x y Hpp0 Hc Hpc Hx Hy.
    pose proof (parent_lt _ Hpp0) as Hppp.
    rewrite list_lookup_insert_ne in Hy by lia.
    assert (Hyp : le_ev y p) by (eapply (HA (parent pos)); eauto; lia).
    destruct (decide (c = pos)) as [->|Hcp].
    + rewrite list_lookup_insert_eq in Hx by auto. injection Hx as <-. exact Hyp.
    + rewrite list_lookup_insert_ne in Hx by auto.
      eapply le_ev_trans; [exact Hyp|].
      eapply (HA c); eauto. rewrite Hpc. exact Hp.
  - intros c x Hc Hpc Hx.
    destruct (decide (c = pos)) as [->|Hcp].
    + rewrite list_lookup_insert_eq in Hx by auto. injection Hx as <-.
      apply Qlt_le_weak, Hlt.
    + rewrite list_lookup_insert_ne in Hx by auto.
      eapply le_ev_trans; [apply Qlt_le_weak, Hlt|].
      eapply (HA c); eauto. rewrite Hpc. exact Hp.
Qed.

Lemma _siftdown_loop_sifted fuel : forall h newitem pos,
  (pos <= fuel)%nat -> (pos < length h)%nat ->
  hole_up h newitem pos ->
  sifted (<[pos := newitem]> h) (_siftdown_loop fuel h newitem 0 pos).
Proof.
  induction fuel as [|fuel IH]; intros h newitem pos Hfuel Hlen Hup; simpl.
  - destruct (decide (0 < pos)%nat); [lia|].
    split; [|reflexivity]. apply hole_up_fill; auto. intros; lia.
  - destruct (decide (0 < pos)%nat) as [Hpos|Hpos].
    + pose proof (parent_lt pos Hpos) as Hpp.
      destruct (getitem_lt h (parent pos)) as (p & -> & Hp); [lia|].
      simpl.
      destruct (tuple_lt newitem p) as [[|]|e] eqn:Hcmp; simpl.
      * apply tuple_lt_true in Hcmp.
        specialize (IH (<[pos := p]> h) newitem (parent pos)).
        unfold sifted in *.
        destruct (_siftdown_loop fuel (<[pos:=p]> h) newitem 0 (parent pos)).
        -- destruct IH as [Hok Hperm].
           ++ lia.
           ++ rewrite length_insert. lia.
           ++ apply hole_up_step; auto.
           ++ split; auto. rewrite Hperm.
              apply insert_move_perm; auto. lia.
        -- destruct IH as [He Hclash];
             [lia|rewrite length_insert; lia|apply hole_up_step; auto|].
           split; [exact He|].
           rewrite <- (insert_move_perm h pos (parent pos) newitem p); auto. lia.
      * apply tuple_lt_false in Hcmp.
        split; [|reflexivity]. apply hole_up_fill; auto.
        intros y _ Hy. rewrite Hp in Hy. injection Hy as <-. exact Hcmp.
      * apply tuple_lt_Err in Hcmp. destruct Hcmp as (He & Heq & Hk).
        split; [exact He|]. exists newitem, p. repeat split; auto.
        -- apply list_elem_of_insert, Hlen.
        -- apply list_elem_of_lookup. exists (parent pos).
           rewrite list_lookup_insert_ne by lia. exact Hp.
    + split; [|reflexivity]. apply hole_up_fill; auto. intros; lia.
Qed.

Lemma _siftdown_sifted h item pos :
  (pos < length h)%nat ->
  h !! pos = Some item ->
  hole_up h item pos ->
  sifted h (_siftdown h 0 pos).
Proof.
  intros Hlen Hitem Hup. unfold _siftdown.
  apply getitem_Ok in Hitem as Hget. rewrite Hget. simpl.
  rewrite <- (list_insert_id h pos item Hitem) at 1.
  apply _siftdown_loop_sifted; auto.
Qed.

Lemma heappush_sifted h item :
  heap_ok h -> sifted (h ++ [item]) (heappush h item).
Proof.
  intros Hh. unfold heappush.
  apply (_siftdown_sifted _ item).
  - rewrite length_app. simpl. lia.
  - rewrite lookup_app_r by lia. rewrite Nat.sub_diag. reflexivity.
  - split.
    + intros i x y Hi Hne Hx Hy.
      apply lookup_lt_Some in Hx as Hlen. rewrite length_app in Hlen. simpl in Hlen.
      pose proof (parent_lt i Hi).
      rewrite lookup_app_l in Hx by lia. rewrite lookup_app_l in Hy by lia.
      eapply Hh; eauto.
    + intros c x y _ Hc Hpc Hx _.
      apply lookup_lt_Some in Hx as Hlen. rewrite length_app in Hlen. simpl in Hlen.
      apply parent_children in Hpc; auto. lia.
    + intros c x Hc Hpc Hx.
      apply lookup_lt_Some in Hx as Hlen. rewrite length_app in Hlen. simpl in Hlen.
      apply parent_children in Hpc; auto. lia.
Qed.

Lemma hole_down_step h pos c v :
  (pos < length h)%nat ->
  hole_down h pos ->
  parent c = pos -> (0 < c)%nat ->
  h !! c = Some v ->
  (forall s x, (0 < s)%nat -> parent s = pos -> h !! s = Some x -> le_ev v x) ->
  hole_down (<[pos := v]> h) c.
Proof.
  intros Hlen [HA HG] Hpc Hc Hv Hmin.
  assert (Hlt : (pos < c)%nat) by (pose proof (parent_lt c Hc); lia).
  split.
  - intros i x y Hi Hne Hx Hy.
    destruct (decide (i = pos)) as [->|Hip].
    + rewrite list_lookup_insert_eq in Hx by auto. injection Hx as <-.
      rewrite list_lookup_insert_ne in Hy by (pose proof (parent_lt pos Hi); lia).
      eapply (HG c); eauto.
    + rewrite list_lookup_insert_ne in Hx by auto.
      destruct (decide (parent i = pos)) as [Hpi|Hpi].
      * rewrite Hpi in Hy.
        rewrite list_lookup_insert_eq in Hy by auto. injection Hy as <-.
        eapply Hmin; eauto.
      * rewrite list_lookup_insert_ne in Hy by auto. eapply HA; eauto.
  - intros d x y _ Hd Hpd Hx Hy.
    assert (c < d)%nat by (pose proof (parent_lt d Hd); lia).
    rewrite list_lookup_insert_ne in Hx by lia.
    rewrite Hpc in Hy.
    rewrite list_lookup_insert_eq in Hy by auto. injection Hy as <-.
    eapply (HA d); eauto; [lia|]. rewrite Hpd. exact Hv.
Qed.

Lemma smaller_child_least h pos :
  (2 * pos + 1 < length h)%nat ->
  match smaller_child h (length h) (2 * pos + 1) with
  | Ok c =>
      exists v, parent c = pos /\ (0 < c)%nat /\ h !! c = Some v /\
        forall s x, (0 < s)%nat -> parent s = pos -> h !! s = Some x -> le_ev v x
  | Err e => e = TypeError /\ forall x, clash (<[pos := x]> h)
  end.
Proof.
  intros Hchild. unfold smaller_child.
  destruct (getitem_lt h (2 * pos + 1)) as (l & Hgl & Hl); [lia|].
  destruct (decide (2 * pos + 1 + 1 < length h)%nat) as [Hright|Hright].
  - destruct (getitem_lt h (2 * pos + 1 + 1)) as (r & Hgr & Hr); [lia|].
    rewrite Hgl, Hgr. cbn [bind].
    destruct (tuple_lt l r) as [[|]|e] eqn:Hcmp; cbn [bind].
    + apply tuple_lt_true in Hcmp. exists l.
      repeat split; auto; [apply parent_children; lia|lia|].
      intros s x Hs Hps Hx. apply parent_children in Hps; auto.
      destruct Hps as [-> | ->].
      * rewrite Hl in Hx. injection Hx as <-. apply le_ev_refl.
      * replace (2 * pos + 2)%nat with (2 * pos + 1 + 1)%nat in Hx by lia.
        rewrite Hr in Hx. injection Hx as <-. apply Qlt_le_weak, Hcmp.
    + apply tuple_lt_false in Hcmp. exists r.
      repeat split; auto; [apply parent_children; lia|lia|].
      intros s x Hs Hps Hx. apply parent_children in Hps; auto.
      destruct Hps as [-> | ->].
      * rewrite Hl in Hx. injection Hx as <-. exact Hcmp.
      * replace (2 * pos + 2)%nat with (2 * pos + 1 + 1)%nat in Hx by lia.
        rewrite Hr in Hx. injection Hx as <-. apply le_ev_refl.
    + apply tuple_lt_Err in Hcmp. destruct Hcmp as (He & Heq & Hk).
      split; [exact He|]. intros x. exists l, r. repeat split; auto.
      * apply list_elem_of_lookup. exists (2 * pos + 1)%nat.
        rewrite list_lookup_insert_ne by lia. exact Hl.
      * apply list_elem_of_lookup. exists (2 * pos + 1 + 1)%nat.
        rewrite list_lookup_insert_ne by lia. exact Hr.
  - exists l. repeat split; auto; [apply parent_children; lia|lia|].
    intros s x Hs Hps Hx. apply parent_children in Hps; auto.
    apply lookup_lt_Some in Hx as Hsl.
    destruct Hps as [-> | ->]; [|lia].
    rewrite Hl in Hx. injection Hx as <-. apply le_ev_refl.
Qed.

Lemma _siftup_loop_sunk fuel : forall h endpos pos,
  endpos = length h ->
  (endpos - pos <= fuel)%nat -> (pos < endpos)%nat ->
  hole_down h pos ->
  sunk h pos (_siftup_loop fuel h endpos pos).
Proof.
  induction fuel as [|fuel IH]; intros h endpos pos -> Hfuel Hlen Hdown;
    cbn [_siftup_loop].
  - destruct (decide (2 * pos + 1 < length h)%nat); [lia|].
    repeat split; auto; try apply Hdown; lia.
  - destruct (decide (2 * pos + 1 < length h)%nat) as [Hchild|Hleaf].
    2: { repeat split; auto; try apply Hdown; lia. }
    pose proof (smaller_child_least h pos Hchild) as Hpick.
    destruct (smaller_child h (length h) (2 * pos + 1)) as [c|e];
      cbn [bind]; [|exact Hpick].
    destruct Hpick as (v & Hpc & Hc & Hv & Hmin).
    apply getitem_Ok in Hv as Hgv. rewrite Hgv. cbn [bind].
    assert (Hlt : (pos < c)%nat) by (pose proof (parent_lt c Hc); lia).
    apply lookup_lt_Some in Hv as Hclen.
    specialize (IH (<[pos := v]> h) (length h) c).
    unfold sunk in *.
    destruct (_siftup_loop fuel (<[pos:=v]> h) (length h) c) as [[h' pos']|e].
    + destruct IH as (Hd & Hl' & Hp' & Hleaf & Hperm).
      * rewrite length_insert. reflexivity.
      * lia.
      * lia.
      * eapply hole_down_step; eauto.
      * rewrite length_insert in *.
        split; [exact Hd|]. repeat (split; [lia|]).
        intros x. rewrite Hperm. apply insert_move_perm; auto. lia.
    + destruct IH as [He Hclash];
        [rewrite length_insert; reflexivity|lia|lia|
         eapply hole_down_step; eauto|].
      split; [exact He|]. intros x.
      rewrite <- (insert_move_perm h pos c x v); auto. lia.
Qed.

Lemma _siftup_sifted h :
  (0 < length h)%nat -> hole_down h 0 -> sifted h (_siftup h 0).
Proof.
  intros Hlen Hdown. unfold _siftup.
  destruct (getitem_lt h 0 Hlen) as (newitem & -> & Hnew). cbn [bind].
  pose proof (_siftup_loop_sunk (length h) h (length h) 0 eq_refl
                ltac:(lia) Hlen Hdown) as Hsunk.
  destruct (_siftup_loop (length h) h (length h) 0) as [[h' pos']|e];
    cbn [bind sunk] in *.
  2: { destruct Hsunk as [He Hclash]. split; [exact He|].
       rewrite <- (list_insert_id h 0 newitem Hnew). apply Hclash. }
  destruct Hsunk as ([HA HG] & Hl' & Hp' & Hleaf & Hperm).
  assert (Hsift : sifted (<[pos' := newitem]> h')
                    (_siftdown (<[pos' := newitem]> h') 0 pos')).
  { apply (_siftdown_sifted _ newitem).
    - rewrite length_insert. lia.
    - apply list_lookup_insert_eq. lia.
    - split.
      + intros i x y Hi Hne Hx Hy.
        apply lookup_lt_Some in Hx as Hil. rewrite length_insert in Hil.
        assert (Hpi : parent i <> pos').
        { intros Hpi. apply parent_children in Hpi; auto. lia. }
        rewrite list_lookup_insert_ne in Hx by auto.
        rewrite list_lookup_insert_ne in Hy by auto.
        eapply HA; eauto.
      + intros c x y _ Hc Hpc Hx _.
        apply lookup_lt_Some in Hx as Hcl. rewrite length_insert in Hcl.
        apply parent_children in Hpc; auto. lia.
      + intros c x Hc Hpc Hx.
        apply lookup_lt_Some in Hx as Hcl. rewrite length_insert in Hcl.
        apply parent_children in Hpc; auto. lia. }
  unfold sifted in *.
  assert (Hback : <[pos' := newitem]> h' ≡ₚ h).
  { rewrite Hperm. rewrite list_insert_id by exact Hnew. reflexivity. }
  destruct (_siftdown (<[pos' := newitem]> h') 0 pos') as [h''|e].
  - destruct Hsift as [Hok Hp]. split; [exact Hok|]. rewrite Hp. exact Hback.
  - destruct Hsift as [He Hclash]. split; [exact He|].
    rewrite <- Hback. exact Hclash.
Qed.

Lemma last_take (h : list Event) x :
  last h = Some x -> h = take (length h - 1) h ++ [x].
Proof.
  intros Hlast. apply last_Some in Hlast as [h' ->].
  rewrite length_app. simpl.
  replace (length h' + 1 - 1)%nat with (length h') by lia.
  rewrite take_app_length. reflexivity.
Qed.

Lemma heap_ok_app h k : heap_ok (h ++ k) -> heap_ok h.
Proof.
  intros Hh i x y Hi Hx Hy.
  apply (Hh i); auto; apply lookup_app_l_Some; assumption.
Qed.

Lemma heappop_popped h : heap_ok h -> popped h (heappop h).
Proof.
  intros Hh. unfold heappop.
  destruct (last h) as [lastelt|] eqn:Hlast.
  2: { apply last_None in Hlast. right. auto. }
  apply last_take in Hlast.
  set (h0 := take (length h - 1) h) in *. clearbody h0. subst h.
  destruct h0 as [|returnitem t].
  - cbn. split; [intros i x y _ Hx; destruct i; discriminate|].
    split; [reflexivity|].
    intros y Hy. apply list_elem_of_singleton in Hy as ->. apply le_ev_refl.
  - assert (Hsift : sifted (lastelt :: t) (_siftup (lastelt :: t) 0)).
    { apply _siftup_sifted; [simpl; lia|]. split.
      - intros i x y Hi Hpi Hx Hy.
        destruct i as [|i]; [lia|].
        destruct (parent (S i)) as [|p] eqn:Hp; [congruence|].
        apply heap_ok_app in Hh.
        apply (Hh (S i)); auto. rewrite Hp. exact Hy.
      - intros; lia. }
    change (<[0%nat := lastelt]> (returnitem :: t)) with (lastelt :: t).
    unfold sifted in Hsift.
    destruct (_siftup (lastelt :: t) 0) as [h'|e]; cbn [bind popped].
    2: { left. destruct Hsift as [He Hclash]. split; [exact He|].
         eapply clash_submseteq; [|exact Hclash].
         simpl. rewrite <- Permutation_cons_append.
         apply submseteq_cons. reflexivity. }
    destruct Hsift as [Hok Hperm]. split; [exact Hok|]. split.
    + rewrite Hperm. simpl. rewrite <- Permutation_cons_append. reflexivity.
    + intros y Hy. apply list_elem_of_lookup in Hy as [i Hi].
      apply (heap_ok_root _ returnitem Hh eq_refl i). exact Hi.
Qed.

(** ** The arrival generator *)

Lemma np_random_poisson_valid self g :
  valid_mean (_person_delay self) ->
  np_random_poisson (_person_delay self) g = Ok (gap self g, advance g).
Proof.
  intros [Hlo Hhi]. unfold np_random_poisson, gap.
  destruct (Z.ltb_spec (_person_delay self) 0); [lia|].
  destruct (Z.ltb_spec POISSON_LAM_MAX (_person_delay self)); [lia|].
  reflexivity.
Qed.

Lemma np_random_poisson_invalid lam g :
  ~ valid_mean lam -> np_random_poisson lam g = Err ValueError.
Proof.
  intros Hbad. unfold np_random_poisson, valid_mean in *.
  destruct (Z.ltb_spec lam 0); [reflexivity|].
  destruct (Z.ltb_spec POISSON_LAM_MAX lam); [reflexivity|lia].
Qed.

Lemma gap_nonneg self g : 0 <= gap self g.
Proof. unfold gap. destruct (_ =? _); lia. Qed.

Lemma candidate_S self t g k :
  candidate self t g (S k) = candidate self t g k + gap self (advance_n k g).
Proof.
  revert t g. induction k as [|k IH]; intros t g.
  - reflexivity.
  - change (candidate self t g (S (S k)))
      with (candidate self (t + gap self g) (advance g) (S k)).
    rewrite IH. reflexivity.
Qed.

Lemma candidate_mono self t g j k :
  (j <= k)%nat -> candidate self t g j <= candidate self t g k.
Proof.
  induction 1 as [|k Hle IH]; [lia|].
  rewrite candidate_S. pose proof (gap_nonneg self (advance_n k g)). lia.
Qed.

(** A time stamp that is not below the others goes to the end of the
    list: no event moves, and equal arrivals compare without error. *)
Lemma heappush_arrival h t :
  arrivals_upto t h -> heappush h (arrive_at t) = Ok (h ++ [arrive_at t]).
Proof.
  intros Hall. unfold heappush, _siftdown.
  assert (Hlast : (h ++ [arrive_at t]) !! length h = Some (arrive_at t)).
  { rewrite lookup_app_r by lia. rewrite Nat.sub_diag. reflexivity. }
  apply getitem_Ok in Hlast as Hget. rewrite Hget. cbn [bind].
  assert (Hid : <[length h := arrive_at t]> (h ++ [arrive_at t]) = h ++ [arrive_at t]).
  { apply list_insert_id, Hlast. }
  destruct (length h) as [|n] eqn:Hlen; cbn [_siftdown_loop].
  - destruct (decide (0 < 0)%nat); [lia|]. rewrite Hid. reflexivity.
  - destruct (decide (0 < S n)%nat); [|lia].
    pose proof (parent_lt (S n) ltac:(lia)) as Hp.
    destruct (lookup_lt_is_Some_2 h (parent (S n)) ltac:(lia)) as [p Hpl].
    assert (Hpg : getitem (h ++ [arrive_at t]) (parent (S n)) = Ok p).
    { apply getitem_Ok. apply lookup_app_l_Some, Hpl. }
    rewrite Hpg. cbn [bind].
    unfold arrivals_upto in Hall. rewrite Forall_lookup in Hall.
    destruct (Hall _ _ Hpl) as [Hk Hle].
    assert (Hcmp : tuple_lt (arrive_at t) p = Ok false).
    { unfold tuple_lt, arrive_at. cbn [fst snd].
      destruct (Qcompare_spec (inject_Z t) (fst p)) as [Heq|Hlt|Hgt].
      - rewrite Hk. reflexivity.
      - exfalso. apply (Qlt_not_le _ _ Hlt Hle).
      - reflexivity. }
    rewrite Hcmp. cbn [bind]. rewrite Hid. reflexivity.
Qed.

Lemma arrivals_upto_snoc t t' h :
  arrivals_upto t h -> t <= t' -> arrivals_upto t' (h ++ [arrive_at t]).
Proof.
  intros Hall Hle. unfold arrivals_upto in *.
  apply Forall_app. split.
  - eapply Forall_impl; [exact Hall|]. intros e [Hk He]. split; [exact Hk|].
    eapply Qle_trans; [exact He|]. rewrite <- Zle_Qle. exact Hle.
  - constructor; [|constructor]. split; [reflexivity|].
    unfold arrive_at. cbn [fst]. rewrite <- Zle_Qle. exact Hle.
Qed.

(** The loop, run from clock [t]: when the [n]-th next clock value is the
    first to reach the horizon, [n] arrivals are queued in the order in
    which they were drawn. *)
Lemma _generate_arrives_loop_run self : forall n fuel t h g,
  valid_mean (_person_delay self) ->
  arrivals_upto t h ->
  (forall k, (k < n)%nat -> candidate self t g k < time self) ->
  time self <= candidate self t g n ->
  (n <= fuel)%nat ->
  _generate_arrives_loop fuel self t h g =
    Ok (h ++ map (fun k => arrive_at (candidate self t g k)) (seq 0 n),
        advance_n n g).
Proof.
  induction n as [|n IH]; intros fuel t h g Hvalid Hall Hbelow Hreach Hfuel.
  - cbn [candidate] in Hreach. destruct fuel; cbn [_generate_arrives_loop];
      (destruct (Z.ltb_spec t (time self)); [lia|]);
      cbn [seq map advance_n]; rewrite app_nil_r; reflexivity.
  - destruct fuel as [|fuel]; [lia|]. cbn [_generate_arrives_loop].
    pose proof (Hbelow 0%nat ltac:(lia)) as H0. cbn [candidate] in H0.
    destruct (Z.ltb_spec t (time self)); [|lia].
    unfold pq_put. change (inject_Z t, ARRIVE) with (arrive_at t).
    rewrite heappush_arrival by exact Hall. cbn [bind].
    rewrite np_random_poisson_valid by exact Hvalid. cbn [bind].
    rewrite (IH fuel (t + gap self g) (h ++ [arrive_at t]) (advance g)); auto.
    + rewrite <- app_assoc. cbn [seq map app candidate advance_n].
      rewrite <- seq_shift, map_map. reflexivity.
    + apply arrivals_upto_snoc; auto. pose proof (gap_nonneg self g). lia.
    + intros k Hk. apply (Hbelow (S k)). lia.
    + lia.
Qed.

(** Conversely, a run of the loop that returns has found such an [n]. *)
Lemma _generate_arrives_loop_Ok self : forall fuel t h g r,
  _generate_arrives_loop fuel self t h g = Ok r ->
  t < time self -> valid_mean (_person_delay self).
Proof.
  intros fuel t h g r Hrun Hlt.
  destruct (decide (valid_mean (_person_delay self))) as [|Hbad]; [assumption|].
  exfalso. destruct fuel as [|fuel]; cbn [_generate_arrives_loop] in Hrun;
    (destruct (Z.ltb_spec t (time self)); [|lia]); [discriminate|].
  destruct (pq_put h (inject_Z t, ARRIVE)); cbn [bind] in Hrun; [|discriminate].
  rewrite np_random_poisson_invalid in Hrun by exact Hbad. discriminate.
Qed.

Lemma _generate_arrives_loop_stops self : forall fuel t h g r,
  valid_mean (_person_delay self) ->
  arrivals_upto t h ->
  _generate_arrives_loop fuel self t h g = Ok r ->
  exists n, (n <= fuel)%nat /\
    (forall k, (k < n)%nat -> candidate self t g k < time self) /\
    time self <= candidate self t g n.
Proof.
  induction fuel as [|fuel IH]; intros t h g r Hvalid Hall Hrun;
    cbn [_generate_arrives_loop] in Hrun;
    destruct (Z.ltb_spec t (time self)) as [Hlt|Hge].
  - discriminate.
  - exists 0%nat. split; [lia|]. split; [intros; lia|exact Hge].
  - unfold pq_put in Hrun. change (inject_Z t, ARRIVE) with (arrive_at t) in Hrun.
    rewrite heappush_arrival in Hrun by exact Hall.
    cbn [bind] in Hrun.
    rewrite np_random_poisson_valid in Hrun by exact Hvalid. cbn [bind] in Hrun.
    apply IH in Hrun as (n & Hn & Hbelow & Hreach); auto.
    + exists (S n). split; [lia|]. split; [|exact Hreach].
      intros [|k] Hk; [exact Hlt|]. apply Hbelow. lia.
    + apply arrivals_upto_snoc; auto. pose proof (gap_nonneg self g). lia.
  - exists 0%nat. split; [lia|]. split; [intros; lia|exact Hge].
Qed.

(** ** The event loop of [simulate_day] *)

Lemma count_kind_cons k e h :
  count_kind k (e :: h) = ((if decide (snd e = k) then 1 else 0) + count_kind k h)%nat.
Proof.
  unfold count_kind. rewrite filter_cons.
  destruct (decide (snd e = k)); reflexivity.
Qed.

Lemma count_kind_app k h1 h2 :
  count_kind k (h1 ++ h2) = (count_kind k h1 + count_kind k h2)%nat.
Proof. unfold count_kind. rewrite filter_app, length_app. reflexivity. Qed.

Lemma count_kind_none k h :
  Forall (fun e => snd e <> k) h -> count_kind k h = 0%nat.
Proof.
  induction 1 as [|e h He _ IH]; [reflexivity|].
  rewrite count_kind_cons, IH. destruct (decide (snd e = k)); [contradiction|reflexivity].
Qed.

#[global] Instance count_kind_Permutation k : Proper ((≡ₚ) ==> eq) (count_kind k).
Proof. intros h1 h2 Hp. unfold count_kind. rewrite Hp. reflexivity. Qed.

Lemma Qsum_dict_add d k v :
  (Qsum (map snd (dict_add d k v)) == Qsum (map snd d) + v)%Q.
Proof.
  induction d as [|[k' v'] d IH]; cbn [dict_add].
  - cbn. ring.
  - destruct (decide (k' = k)); cbn [map snd Qsum foldr] in *.
    + fold (Qsum (map snd d)). ring.
    + fold (Qsum (map snd d)). fold (Qsum (map snd (dict_add d k v))).
      rewrite IH. ring.
Qed.

Lemma Qfloor_plus_le a b : Qfloor a + Qfloor b <= Qfloor (a + b)%Q.
Proof.
  rewrite <- (Qfloor_Z (Qfloor a + Qfloor b)).
  apply Qfloor_resp_le. rewrite inject_Z_plus.
  apply Qplus_le_compat; apply Qfloor_le.
Qed.

Lemma is_FINISH_true k : is_FINISH k = true <-> k = FINISH.
Proof. destruct k; cbn; split; congruence. Qed.

Lemma is_ARRIVE_true k : is_ARRIVE k = true <-> k = ARRIVE.
Proof. destruct k; cbn; split; congruence. Qed.

Section EventLoop.

Variable self : LibSimulation.

(** *** First half of the body: the next event is accounted for *)

Lemma account_event_inv s ev q :
  day_inv self s ->
  heap_ok q -> events s ≡ₚ ev :: q -> (forall y, y ∈ events s -> le_ev ev y) ->
  day_inv self (account_event s ev q) /\
  (actual_time s <= fst ev)%Q /\
  (snd ev = FINISH -> free_worker s = false) /\
  (snd ev = ARRIVE -> (fst ev < inject_Z (time self))%Q).
Proof.
  intros [Hheap Hfut Harr Hfin Hhist Hart] Hq Hperm Hmin.
  assert (Hin : ev ∈ events s) by (rewrite Hperm; left).
  assert (Hnow : (actual_time s <= fst ev)%Q).
  { rewrite Forall_forall in Hfut. apply Hfut, Hin. }
  assert (Hsub : forall y, y ∈ q -> y ∈ events s).
  { intros y Hy. rewrite Hperm. right. exact Hy. }
  rewrite Hperm, count_kind_cons in Hfin.
  assert (Hbusy : snd ev = FINISH -> free_worker s = false).
  { intros Hk. destruct (decide (snd ev = FINISH)); [|contradiction].
    destruct (free_worker s); [lia|reflexivity]. }
  repeat split; auto; cbn [account_event events actual_time free_worker
    number_waiting_persons_in_time total_articles].
  - rewrite Forall_forall. intros y Hy. apply Hmin, Hsub, Hy.
  - rewrite Forall_forall in *. intros y Hy. apply Harr, Hsub, Hy.
  - destruct (decide (snd ev = FINISH)) as [Hk|Hk].
    + rewrite (proj2 (is_FINISH_true _) Hk).
      destruct (free_worker s); lia.
    + destruct (is_FINISH (snd ev)) eqn:E; [apply is_FINISH_true in E; contradiction|].
      exact Hfin.
  - rewrite Qsum_dict_add, Hhist. ring.
  - destruct (free_worker s).
    + etransitivity; [apply Z.add_le_mono_r, Hart|].
      etransitivity; [apply Qfloor_plus_le|].
      apply Qfloor_resp_le. apply Qle_lteq. right. field.
    + etransitivity; [exact Hart|]. apply Qfloor_resp_le.
      apply Qmult_le_compat_r; [|discriminate].
      apply Qmult_le_compat_r; [exact Hnow|discriminate].
  - rewrite Forall_forall in Harr. apply Harr, Hin.
Qed.

Lemma handle_event_run s :
  day_inv self s ->
  pq_empty (events s) = false ->
  match handle_event s with
  | Ok s1 =>
      exists ev q, events s ≡ₚ ev :: q /\ (forall y, y ∈ events s -> le_ev ev y) /\
        heap_ok q /\ s1 = account_event s ev q
  | Err e => e = TypeError /\ clash (events s)
  end.
Proof.
  intros Hinv Hne. unfold handle_event, pq_get.
  pose proof (heappop_popped (events s) (inv_heap _ _ Hinv)) as Hpop.
  destruct (heappop (events s)) as [[ev q]|e]; cbn [bind popped] in *.
  - destruct Hpop as (Hq & Hperm & Hmin). exists ev, q. auto.
  - destruct Hpop as [Hty|[Hnil _]]; [exact Hty|].
    rewrite Hnil in Hne. discriminate.
Qed.

(** *** Second half of the body: the next person is served *)

Lemma service_end_future s :
  0 <= _service_delay self -> (actual_time s <= fst (service_end self s))%Q.
Proof.
  intros Hsd. unfold service_end. cbn [fst].
  set (v := current (np_random s)).
  assert (0 <= inject_Z (_service_delay self) * (Z.of_N (v_exp_num v) # v_exp_den v))%Q.
  { apply Qmult_le_0_compat.
    - change 0%Q with (inject_Z 0). rewrite <- Zle_Qle. exact Hsd.
    - unfold Qle. cbn. lia. }
  lra.
Qed.

Lemma serve_next_run s :
  heap_ok (events s) -> served self s (serve_next self s).
Proof.
  intros Hheap. unfold serve_next.
  destruct (free_worker s) eqn:Hfree; [|constructor; auto].
  destruct (waiting_persons s) as [|person waiting] eqn:Hline; [constructor; auto|].
  unfold np_random_exponential.
  destruct (Z.ltb_spec (_service_delay self) 0) as [Hneg|Hpos]; cbn [bind].
  { apply served_bad_scale; auto. rewrite Hline. discriminate. }
  unfold pq_put.
  pose proof (heappush_sifted (events s) (service_end self s) Hheap) as Hpush.
  change (heappush (events s) (service_end self s)) with
    (heappush (events s)
       ((inject_Z (_service_delay self)
         * (Z.of_N (v_exp_num (current (np_random s)))
            # v_exp_den (current (np_random s)))
         + actual_time s)%Q, FINISH)) in Hpush.
  destruct (heappush _ _) as [q|e]; cbn [bind sifted] in *.
  - destruct Hpush as [Hq Hperm]. eapply served_start; eauto.
  - destruct Hpush as [-> Hclash]. apply served_clash; auto.
    rewrite Hline. discriminate.
Qed.

Lemma served_inv s s' :
  day_inv self s -> served self s (Ok s') ->
  day_inv self s' /\ served_if_free s' /\
  actual_time s' = actual_time s /\ total_articles s' = total_articles s /\
  number_waiting_persons_in_time s' = number_waiting_persons_in_time s.
Proof.
  intros Hinv Hadm. inversion Hadm as [Hcase|person waiting q Hfree Hline Hsd Hq Hperm| |];
    subst.
  - repeat split; try apply Hinv.
    intros Hf. destruct Hcase as [Hb|Hw]; [congruence|exact Hw].
  - destruct Hinv as [Hheap Hfut Harr Hfin Hhist Hart].
    repeat split; cbn [start_service events actual_time free_worker
      number_waiting_persons_in_time total_articles]; auto.
    + rewrite Hperm. apply Forall_app. split; [exact Hfut|].
      constructor; [|constructor]. apply service_end_future, Hsd.
    + rewrite Hperm. apply Forall_app. split; [exact Harr|].
      constructor; [|constructor]. cbn. discriminate.
    + rewrite Hperm, count_kind_app, Hfin, Hfree. reflexivity.
    + intros Hf. discriminate.
Qed.

(** *** One pass, and the whole loop *)

(** What one pass of the loop does to a state that satisfies the
    invariant. *)
Lemma day_iteration_run s :
  day_inv self s -> pq_empty (events s) = false ->
  match day_iteration self s with
  | Ok s' =>
      exists ev q,
        events s ≡ₚ ev :: q /\ (forall y, y ∈ events s -> le_ev ev y) /\
        heap_ok q /\ day_inv self (account_event s ev q) /\
        served self (account_event s ev q) (Ok s') /\
        day_inv self s' /\ served_if_free s'
  | Err e =>
      (e = TypeError /\ clash (events s)) \/
      exists ev q,
        events s ≡ₚ ev :: q /\ (forall y, y ∈ events s -> le_ev ev y) /\
        day_inv self (account_event s ev q) /\
        served self (account_event s ev q) (Err e)
  end.
Proof.
  intros Hinv Hne. unfold day_iteration.
  pose proof (handle_event_run s Hinv Hne) as Hh.
  destruct (handle_event s) as [s1|e]; cbn [bind]; [|left; exact Hh].
  destruct Hh as (ev & q & Hperm & Hmin & Hq & ->).
  destruct (account_event_inv s ev q Hinv Hq Hperm Hmin) as (Hinv1 & _).
  pose proof (serve_next_run _ (inv_heap _ _ Hinv1)) as Hadm.
  destruct (serve_next self (account_event s ev q)) as [s'|e].
  - exists ev, q. destruct (served_inv _ _ Hinv1 Hadm) as (Hinv' & Hserved & _).
    repeat apply conj; auto.
  - right. exists ev, q. auto.
Qed.

Lemma passes_left_account s ev q :
  events s ≡ₚ ev :: q ->
  passes_left s = S (passes_left (account_event s ev q)).
Proof.
  intros Hperm. unfold passes_left.
  cbn [account_event events waiting_persons].
  rewrite Hperm, !count_kind_cons.
  destruct ev as [t [|]]; cbn [snd is_ARRIVE is_FINISH EventType_eqb].
  - destruct (decide (ARRIVE = ARRIVE)); [|congruence].
    destruct (decide (ARRIVE = FINISH)); [congruence|].
    rewrite length_app. cbn [length]. lia.
  - destruct (decide (FINISH = ARRIVE)); [congruence|].
    destruct (decide (FINISH = FINISH)); [|congruence]. lia.
Qed.

Lemma passes_left_served s s' :
  served self s (Ok s') -> passes_left s' = passes_left s.
Proof.
  intros Hadm. inversion Hadm as [|person waiting q Hfree Hline Hsd Hq Hperm| |];
    subst; [reflexivity|].
  unfold passes_left. cbn [start_service events waiting_persons].
  rewrite Hperm, !count_kind_app, Hline. cbn [length].
  unfold service_end. rewrite !count_kind_cons. cbn [snd].
  destruct (decide (FINISH = ARRIVE)); [congruence|].
  destruct (decide (FINISH = FINISH)); [|congruence].
  unfold count_kind. cbn. lia.
Qed.

Lemma day_start_inv arrives g :
  heap_ok arrives ->
  Forall (fun e => snd e = ARRIVE /\ (0 <= fst e < inject_Z (time self))%Q) arrives ->
  day_inv self (day_start arrives g) /\ served_if_free (day_start arrives g).
Proof.
  intros Hheap Hall. split; [split|]; cbn [day_start events actual_time free_worker
    number_waiting_persons_in_time total_articles]; auto.
  - eapply Forall_impl; [exact Hall|]. intros e (_ & H & _). exact H.
  - eapply Forall_impl; [exact Hall|]. intros e (_ & _ & H) _. exact H.
  - apply count_kind_none. eapply Forall_impl; [exact Hall|].
    intros e [Hk _]. congruence.
  - reflexivity.
  - reflexivity.
  - intros _. reflexivity.
Qed.

Lemma day_steps_inv s s' :
  day_steps self s s' ->
  day_inv self s -> day_inv self s' /\ (served_if_free s -> served_if_free s').
Proof.
  induction 1 as [s|s s1 s2 Hne Hit Hsteps IH]; intros Hinv; [auto|].
  pose proof (day_iteration_run s Hinv Hne) as Hrun.
  rewrite Hit in Hrun. destruct Hrun as (ev & q & _ & _ & _ & _ & _ & Hinv1 & Hs1).
  destruct (IH Hinv1) as [Hinv2 Hs2]. auto.
Qed.

Lemma day_iteration_served s s' :
  day_inv self s -> served_or_fresh s -> pq_empty (events s) = false ->
  day_iteration self s = Ok s' -> people_awaiting_time s' <> [].
Proof.
  intros Hinv Hsof Hne Hit.
  pose proof (day_iteration_run s Hinv Hne) as Hrun. rewrite Hit in Hrun.
  destruct Hrun as (ev & q & Hperm & _ & _ & _ & Hadm & _).
  inversion Hadm as [Hcase|person waiting q2 Hfree Hline Hsd Hq2 Hperm2| |]; subst.
  - cbn [account_event people_awaiting_time free_worker waiting_persons] in *.
    destruct Hsof as [Hsome|(_ & Hfree & Hline & Hkinds)]; [exact Hsome|].
    exfalso. rewrite Forall_forall in Hkinds.
    assert (Hev : snd ev = ARRIVE) by (apply Hkinds; rewrite Hperm; left).
    rewrite Hev, Hfree, Hline in Hcase. cbn in Hcase.
    destruct Hcase; discriminate.
  - cbn [start_service people_awaiting_time].
    intros Hnil. apply app_eq_nil in Hnil as [_ Hnil]. discriminate.
Qed.

Lemma day_steps_served s s' :
  day_steps self s s' ->
  day_inv self s -> served_or_fresh s -> served_or_fresh s'.
Proof.
  induction 1 as [s|s s1 s2 Hne Hit Hsteps IH]; intros Hinv Hsof; [exact Hsof|].
  pose proof (day_iteration_run s Hinv Hne) as Hrun. rewrite Hit in Hrun.
  destruct Hrun as (ev & q & _ & _ & _ & _ & _ & Hinv1 & _).
  apply IH; [exact Hinv1|]. left.
  apply (day_iteration_served s); auto.
Qed.

Lemma day_steps_trans s1 s2 s3 :
  day_steps self s1 s2 -> day_steps self s2 s3 -> day_steps self s1 s3.
Proof.
  induction 1; intros; [assumption|]. eapply day_steps_next; eauto.
Qed.

(** The loop cannot use up the fuel that [run_day] gives it: it ends in
    the state where the queue is empty, or a pass raises. *)
Lemma day_loop_run : forall fuel s,
  day_inv self s -> (passes_left s <= fuel)%nat ->
  match day_loop fuel self s with
  | Ok s' => day_steps self s s' /\ events s' = []
  | Err e =>
      exists s1, day_steps self s s1 /\ pq_empty (events s1) = false /\
        day_iteration self s1 = Err e /\ (e = TypeError \/ e = ValueError)
  end.
Proof.
  induction fuel as [|fuel IH]; intros s Hinv Hfuel; cbn [day_loop];
    destruct (pq_empty (events s)) eqn:Hne.
  - split; [constructor|]. destruct (events s); [reflexivity|discriminate].
  - exfalso. unfold passes_left in Hfuel.
    destruct (events s) as [|[t k] q]; [discriminate|].
    rewrite !count_kind_cons in Hfuel. cbn [snd] in Hfuel.
    destruct k; repeat case_decide; try congruence; lia.
  - split; [constructor|]. destruct (events s); [reflexivity|discriminate].
  - pose proof (day_iteration_run s Hinv Hne) as Hrun.
    destruct (day_iteration self s) as [s'|e] eqn:Hit; cbn [bind].
    + destruct Hrun as (ev & q & Hperm & _ & _ & _ & Hadm & Hinv' & _).
      assert (Hless : passes_left s = S (passes_left s')).
      { rewrite (passes_left_account s ev q Hperm).
        rewrite (passes_left_served _ _ Hadm). reflexivity. }
      specialize (IH s' Hinv' ltac:(lia)).
      destruct (day_loop fuel self s') as [s''|e].
      * destruct IH as [Hsteps Hnil]. split; [|exact Hnil].
        eapply day_steps_next; eauto.
      * destruct IH as (s1 & Hsteps & Hne1 & Hit1 & He).
        exists s1. repeat apply conj; auto. eapply day_steps_next; eauto.
    + exists s. repeat apply conj; auto; [constructor|].
      destruct Hrun as [[-> _]|(ev & q & _ & _ & _ & Hadm)]; [auto|].
      inversion Hadm; auto.
Qed.

End EventLoop.

(** ** [_generate_arrives] and [run_day] as a whole *)

Lemma _generate_arrives_run self g n fuel :
  valid_mean (_person_delay self) ->
  (forall k, (k < n)%nat -> arrival self g k < time self) ->
  time self <= arrival self g n ->
  (n <= fuel)%nat ->
  _generate_arrives fuel self g = Ok (arrival_queue self g n, advance_n (S n) g).
Proof.
  intros Hvalid Hbelow Hreach Hfuel. unfold _generate_arrives.
  rewrite np_random_poisson_valid by exact Hvalid. cbn [bind].
  rewrite (_generate_arrives_loop_run self n); auto.
  constructor.
Qed.

Lemma _generate_arrives_Ok self fuel g h g' :
  _generate_arrives fuel self g = Ok (h, g') ->
  valid_mean (_person_delay self) /\
  exists n, (n <= fuel)%nat /\
    (forall k, (k < n)%nat -> arrival self g k < time self) /\
    time self <= arrival self g n /\
    h = arrival_queue self g n /\ g' = advance_n (S n) g.
Proof.
  intros Hrun.
  destruct (decide (valid_mean (_person_delay self))) as [Hvalid|Hbad].
  2: { unfold _generate_arrives in Hrun.
       rewrite np_random_poisson_invalid in Hrun by exact Hbad. discriminate. }
  split; [exact Hvalid|].
  pose proof Hrun as Hloop. unfold _generate_arrives in Hloop.
  rewrite np_random_poisson_valid in Hloop by exact Hvalid. cbn [bind] in Hloop.
  apply _generate_arrives_loop_stops in Hloop as (n & Hn & Hbelow & Hreach);
    [|exact Hvalid|constructor].
  exists n. repeat apply conj; auto;
    rewrite (_generate_arrives_run self g n fuel) in Hrun by auto; congruence.
Qed.

Lemma arrival_nonneg self g k : 0 <= arrival self g k.
Proof.
  unfold arrival.
  pose proof (candidate_mono self (gap self g) (advance g) 0 k ltac:(lia)) as H.
  cbn [candidate] in H. pose proof (gap_nonneg self g). lia.
Qed.

Lemma arrival_mono self g j k :
  (j <= k)%nat -> arrival self g j <= arrival self g k.
Proof. apply candidate_mono. Qed.

Lemma arrival_queue_lookup self g n i x :
  arrival_queue self g n !! i = Some x <->
  (i < n)%nat /\ x = arrive_at (arrival self g i).
Proof.
  unfold arrival_queue. rewrite list_lookup_fmap.
  destruct (decide (i < n)%nat) as [Hi|Hi].
  - rewrite lookup_seq_lt by exact Hi. cbn. split.
    + intros [= <-]. auto.
    + intros [_ ->]. reflexivity.
  - rewrite lookup_seq_ge by lia. cbn. split; [discriminate|]. intros [? _]. lia.
Qed.

Lemma arrival_queue_ok self g n :
  (forall k, (k < n)%nat -> arrival self g k < time self) ->
  heap_ok (arrival_queue self g n) /\
  Forall (fun e => snd e = ARRIVE /\ (0 <= fst e < inject_Z (time self))%Q)
         (arrival_queue self g n).
Proof.
  intros Hbelow. split.
  - intros i x y Hi Hx Hy.
    apply arrival_queue_lookup in Hx as [_ ->].
    apply arrival_queue_lookup in Hy as [_ ->].
    unfold le_ev, arrive_at. cbn [fst]. rewrite <- Zle_Qle.
    apply arrival_mono. pose proof (parent_lt i Hi). lia.
  - rewrite Forall_lookup. intros i x Hx.
    apply arrival_queue_lookup in Hx as [Hi ->].
    unfold arrive_at. cbn [fst snd]. split; [reflexivity|]. split.
    + change 0%Q with (inject_Z 0). rewrite <- Zle_Qle. apply arrival_nonneg.
    + rewrite <- Zlt_Qlt. apply Hbelow, Hi.
Qed.

Lemma day_reaches_inv self fuel g s :
  day_reaches self fuel g s -> day_inv self s /\ served_if_free s.
Proof.
  intros (arrives & g' & Hgen & Hsteps).
  apply _generate_arrives_Ok in Hgen as (_ & n & _ & Hbelow & _ & -> & _).
  destruct (arrival_queue_ok self g n Hbelow) as [Hheap Hall].
  destruct (day_start_inv self _ g' Hheap Hall) as [Hinv Hserved].
  destruct (day_steps_inv _ _ _ Hsteps Hinv). auto.
Qed.

Lemma passes_left_start arrives g :
  passes_left (day_start arrives g) =
  (2 * count_kind ARRIVE arrives + count_kind FINISH arrives)%nat.
Proof. unfold passes_left. cbn [day_start events waiting_persons length]. lia. Qed.

(** A day that [run_day] completes ends in a state that the loop reaches
    from the generated arrivals, with an empty queue. *)
Lemma run_day_Ok fuel self g s :
  run_day fuel self g = Ok s ->
  day_reaches self fuel g s /\ events s = [] /\ day_inv self s.
Proof.
  intros Hrun. unfold run_day in Hrun.
  destruct (_generate_arrives fuel self g) as [[arrives g']|e] eqn:Hgen;
    cbn [bind] in Hrun; [|discriminate].
  pose proof Hgen as Hgen'.
  apply _generate_arrives_Ok in Hgen' as (_ & n & _ & Hbelow & _ & -> & _).
  destruct (arrival_queue_ok self g n Hbelow) as [Hheap Hall].
  destruct (day_start_inv self _ g' Hheap Hall) as [Hinv Hserved].
  pose proof (day_loop_run self _ _ Hinv (Nat.le_refl _)) as Hloop.
  rewrite Hrun in Hloop. destruct Hloop as [Hsteps Hnil].
  assert (Hreach : day_reaches self fuel g s).
  { exists (arrival_queue self g n), g'. auto. }
  repeat apply conj; auto. apply (day_reaches_inv _ _ _ _ Hreach).
Qed.

Lemma run_day_served fuel self g s :
  run_day fuel self g = Ok s -> served_or_fresh s.
Proof.
  intros Hrun. apply run_day_Ok in Hrun as ((arrives & g' & Hgen & Hsteps) & _ & _).
  apply _generate_arrives_Ok in Hgen as (_ & n & _ & Hbelow & _ & -> & _).
  destruct (arrival_queue_ok self g n Hbelow) as [Hheap Hall].
  destruct (day_start_inv self _ g' Hheap Hall) as [Hinv _].
  apply (day_steps_served self _ _ Hsteps Hinv).
  right. cbn [day_start actual_time free_worker waiting_persons events].
  repeat apply conj; auto.
  eapply Forall_impl; [exact Hall|]. intros e [Hk _]. exact Hk.
Qed.

(** * The claims *)

(** ** C4: conservation of the histogram *)



(** ** C8: monotonic time *)

(** C8. In a day started by [run_day], every pass of the loop extracts an
    event that is a least pending one, its time stamp is not below the
    current time (the elapsed time is not negative), and every event
    pending afterwards, the newly scheduled end of service included, is
    not before the new current time. *)
Theorem monotonic_time self fuel g s s' :
  day_reaches self fuel g s ->
  pq_empty (events s) = false ->
  day_iteration self s = Ok s' ->
  (actual_time s <= actual_time s')%Q /\
  (forall y, y ∈ events s -> (actual_time s' <= fst y)%Q) /\
  (forall y, y ∈ events s' -> (actual_time s' <= fst y)%Q).
Proof.
  intros Hreach Hne Hit.
  destruct (day_reaches_inv _ _ _ _ Hreach) as [Hinv _].
  pose proof (day_iteration_run self s Hinv Hne) as Hrun. rewrite Hit in Hrun.
  destruct Hrun as (ev & q & Hperm & Hmin & Hq & Hinv1 & Hadm & Hinv' & _).
  destruct (account_event_inv self s ev q Hinv Hq Hperm Hmin) as (_ & Hnow & _).
  destruct (served_inv _ _ _ Hinv1 Hadm) as (_ & _ & Htime & _).
  cbn [account_event actual_time] in Htime.
  rewrite Htime. repeat apply conj.
  - exact Hnow.
  - intros y Hy. apply Hmin, Hy.
  - intros y Hy. rewrite <- Htime.
    pose proof (inv_future _ _ Hinv') as Hfut.
    rewrite Forall_forall in Hfut. apply Hfut, Hy.
Qed.

Lemma monotonic_time_witness :
  exists s s',
    day_reaches desk 10 tied_arrivals s /\ day_iteration desk s = Ok s' /\
    actual_time s = 5%Q /\ actual_time s' = 5%Q /\
    (actual_time s <= actual_time s')%Q.
Proof.
  assert (Hreach : exists s,
    day_iteration desk
      (day_start [(5%Q, ARRIVE); (5%Q, ARRIVE)] (advance_n 3 tied_arrivals)) = Ok s /\
    day_reaches desk 10 tied_arrivals s).
  { eexists. split; [vm_compute; reflexivity|].
    exists [(5%Q, ARRIVE); (5%Q, ARRIVE)], (advance_n 3 tied_arrivals).
    split; [vm_compute; reflexivity|].
    eapply day_steps_next; [reflexivity|vm_compute; reflexivity|constructor]. }
  destruct Hreach as (s & Hs & Hreach).
  injection Hs as <-.
  eexists. eexists. split; [exact Hreach|].
  split; [vm_compute; reflexivity|]. split; [reflexivity|]. split; [reflexivity|].
  eapply (monotonic_time desk 10 tied_arrivals); [exact Hreach|reflexivity|].
  vm_compute. reflexivity.
Defined.

(** ** C7: the bound on the articles *)

(** C7. For every day that [run_day] completes, the articles
    credited over the idle intervals are at most
    [floor(actual_time * 22 / 3600)] for the final [actual_time]. *)
Theorem article_bound fuel self g s :
  run_day fuel self g = Ok s ->
  total_articles s <= Qfloor (actual_time s * 22 / 3600).
Proof.
  intros Hrun. apply run_day_Ok in Hrun as (_ & _ & Hinv).
  apply (inv_articles _ _ Hinv).
Qed.

Lemma article_bound_witness :
  exists s, run_day 10 desk one_long_service = Ok s /\
    total_articles s = 11 /\ Qfloor (actual_time s * 22 / 3600) = 55 /\
    total_articles s <= Qfloor (actual_time s * 22 / 3600).
Proof.
  eexists. split; [vm_compute; reflexivity|].
  split; [reflexivity|]. split; [reflexivity|].
  apply (article_bound 10 desk one_long_service). vm_compute. reflexivity.
Defined.

(** C7, equality without a wholly idle day: the bound is attained on a
    day on which the worker served a person from 3600 s to 3750 s. *)
Lemma article_bound_attained_while_busy :
  exists s1 s,
    day_reaches long_desk 10 short_service s1 /\
    free_worker s1 = false /\
    day_iteration long_desk s1 = Ok s /\
    (actual_time s1 < actual_time s)%Q /\
    run_day 10 long_desk short_service = Ok s /\
    total_articles s = Qfloor (actual_time s * 22 / 3600).
Proof.
  assert (Hreach : exists s1,
    day_iteration long_desk
      (day_start [(3600%Q, ARRIVE)] (advance_n 2 short_service)) = Ok s1 /\
    day_reaches long_desk 10 short_service s1).
  { eexists. split; [vm_compute; reflexivity|].
    exists [(3600%Q, ARRIVE)], (advance_n 2 short_service).
    split; [vm_compute; reflexivity|].
    eapply day_steps_next; [reflexivity|vm_compute; reflexivity|constructor]. }
  destruct Hreach as (s1 & Hs1 & Hreach). injection Hs1 as <-.
  eexists. eexists. split; [exact Hreach|]. split; [reflexivity|].
  split; [vm_compute; reflexivity|]. split; [reflexivity|].
  split; [vm_compute; reflexivity|]. reflexivity.
Qed.

(** ** C6: one service at a time *)




(** ** C10: the clock at the end of the day *)




(** ** C9: ties in the priority queue *)







(** ** C1: a day without arrivals *)

(** C1. When the first arrival drawn is not before the horizon, the event
    queue of the day is empty and [simulate_day] raises
    [ZeroDivisionError]: it returns no statistics. *)
Theorem empty_day_raises fuel self g :
  valid_mean (_person_delay self) ->
  time self <= gap self g ->
  simulate_day fuel self g = Err ZeroDivisionError.
Proof.
  intros Hvalid Hlate. unfold simulate_day, run_day.
  rewrite (_generate_arrives_run self g 0 fuel Hvalid
             ltac:(intros; lia) Hlate ltac:(lia)).
  reflexivity.
Qed.

Lemma empty_day_raises_witness :
  simulate_day 10 quiet_desk no_arrival = Err ZeroDivisionError.
Proof.
  apply (empty_day_raises 10 quiet_desk no_arrival).
  - unfold valid_mean. vm_compute. split; discriminate.
  - vm_compute. discriminate.
Defined.

(** ** C3: the arrivals in order *)

Lemma first_reach (f : nat -> Z) (T : Z) m :
  T <= f m ->
  exists n, (n <= m)%nat /\ T <= f n /\ forall k, (k < n)%nat -> f k < T.
Proof.
  assert (Hscan : forall m,
    (exists n, (n <= m)%nat /\ T <= f n /\ forall k, (k < n)%nat -> f k < T) \/
    (forall k, (k <= m)%nat -> f k < T)).
  { clear m. induction m as [|m [(n & Hn & Hfn & Hbelow)|Hall]].
    - destruct (Z_lt_le_dec (f 0%nat) T) as [Hlt|Hge].
      + right. intros k Hk. replace k with 0%nat by lia. exact Hlt.
      + left. exists 0%nat. repeat apply conj; auto. intros; lia.
    - left. exists n. repeat apply conj; auto.
    - destruct (Z_lt_le_dec (f (S m)) T) as [Hlt|Hge].
      + right. intros k Hk. destruct (decide (k = S m)) as [->|]; [exact Hlt|].
        apply Hall. lia.
      + left. exists (S m). repeat apply conj; auto.
        intros k Hk. apply Hall. lia. }
  intros Hm. destruct (Hscan m) as [Hfound|Hall]; [exact Hfound|].
  specialize (Hall m ltac:(lia)). lia.
Qed.

(** C3. For every horizon and every mean delay that the
    sampler accepts, if the accumulated gaps reach the horizon after [m]
    draws, then [_generate_arrives] returns with fuel [m]: its queue lists
    [ARRIVE] events only, in the order of the draws, with time stamps that
    never decrease and are all below the horizon; it stops at the first
    accumulated time stamp that is not below the horizon; and two
    successive time stamps differ by the gap drawn between them, which may
    be zero. *)
Theorem arrivals_ordered self g m :
  valid_mean (_person_delay self) ->
  time self <= arrival self g m ->
  exists n, (n <= m)%nat /\
    _generate_arrives m self g = Ok (arrival_queue self g n, advance_n (S n) g) /\
    (forall k, (k < n)%nat -> arrival self g k < time self) /\
    time self <= arrival self g n /\
    (forall i j a b, (i <= j)%nat ->
       arrival_queue self g n !! i = Some a ->
       arrival_queue self g n !! j = Some b ->
       snd a = ARRIVE /\ (fst a <= fst b)%Q /\ (fst b < inject_Z (time self))%Q) /\
    (forall k, arrival self g (S k)
               = arrival self g k + gap self (advance_n (S k) g)) /\
    (forall k, 0 <= gap self (advance_n (S k) g)).
Proof.
  intros Hvalid Hreach.
  destruct (first_reach (arrival self g) (time self) m Hreach)
    as (n & Hn & Hstop & Hbelow).
  exists n.
  split; [exact Hn|]. split; [apply _generate_arrives_run; auto|].
  split; [exact Hbelow|]. split; [exact Hstop|]. split; [|split].
  - intros i j a b Hij Ha Hb.
    apply arrival_queue_lookup in Ha as [_ ->].
    apply arrival_queue_lookup in Hb as [Hj ->].
    unfold arrive_at. cbn [fst snd]. split; [reflexivity|]. split.
    + rewrite <- Zle_Qle. apply arrival_mono, Hij.
    + rewrite <- Zlt_Qlt. apply Hbelow, Hj.
  - intros k. unfold arrival. rewrite candidate_S. reflexivity.
  - intros k. apply gap_nonneg.
Qed.

Lemma arrivals_ordered_witness :
  exists n, (n <= 2)%nat /\
    _generate_arrives 2 desk tied_arrivals
      = Ok (arrival_queue desk tied_arrivals n, advance_n (S n) tied_arrivals) /\
    arrival_queue desk tied_arrivals 2 = [(5%Q, ARRIVE); (5%Q, ARRIVE)].
Proof.
  destruct (arrivals_ordered desk tied_arrivals 2) as (n & Hn & Hgen & _).
  - unfold valid_mean. vm_compute. split; discriminate.
  - vm_compute. discriminate.
  - exists n. repeat apply conj; auto.
Defined.

(** C3, time stamps that do not increase: after a gap of zero the second
    arrival has the time stamp of the first. *)
Lemma arrivals_not_strictly_increasing :
  exists q g' a b,
    _generate_arrives 10 desk tied_arrivals = Ok (q, g') /\
    q !! 0%nat = Some a /\ q !! 1%nat = Some b /\ ~ (fst a < fst b)%Q.
Proof.
  eexists. eexists. eexists. eexists.
  split; [vm_compute; reflexivity|].
  split; [reflexivity|]. split; [reflexivity|].
  cbn. intros H. discriminate H.
Qed.

(** ** C2: delays that are not positive *)






(** ** C5: one day through [simulate] *)

Lemma np_mean_one q : npfloat_eq (np_mean [Fin q]) (Fin q).
Proof. cbn. field. Qed.

Lemma finite_values_Fin l : finite_values (map Fin l) = Some l.
Proof.
  induction l as [|q l IH]; [reflexivity|].
  cbn [map finite_values]. rewrite IH. reflexivity.
Qed.

Lemma np_mean_Fin l : l <> [] -> exists q, np_mean (map Fin l) = Fin q.
Proof.
  intros Hne. destruct l as [|q l]; [contradiction|].
  unfold np_mean. cbn [map finite_values]. rewrite finite_values_Fin. eauto.
Qed.

(** The mean waiting time that [simulate_day] returns is a number: a day
    that did not raise has served somebody. *)
Lemma simulate_day_mean_finite fuel self g r g' :
  simulate_day fuel self g = Ok (r, g') -> exists q, snd r = Fin q.
Proof.
  intros Hday. unfold simulate_day in Hday.
  destruct (run_day fuel self g) as [s|e] eqn:Hrun; cbn [bind] in Hday;
    [|discriminate].
  unfold day_summary in Hday.
  destruct (Qeq_bool (actual_time s) 0) eqn:Hzero; cbn [bind] in Hday;
    [discriminate|].
  injection Hday as <- _. cbn [snd].
  apply np_mean_Fin.
  destruct (run_day_served _ _ _ _ Hrun) as [Hserved|(Hnow & _)]; [exact Hserved|].
  rewrite Hnow in Hzero. discriminate.
Qed.

(** C5. From the same generator state, [simulate] with [days = 1] returns
    the three values of [simulate_day] in the order waiting time, line
    length, articles, and raises what [simulate_day] raises. *)
Theorem simulate_one_day fuel self g :
  match simulate_day fuel self g with
  | Ok (day_line_length, day_articles, day_awaiting_time_mean, g') =>
      exists w l a,
        simulate fuel self 1 g = Ok (w, l, a, g') /\
        npfloat_eq w day_awaiting_time_mean /\
        npfloat_eq l (Fin day_line_length) /\
        npfloat_eq a (Fin (inject_Z day_articles))
  | Err e => simulate fuel self 1 g = Err e
  end.
Proof.
  unfold simulate. change (Z.to_nat 1) with 1%nat. cbn [simulate_loop].
  destruct (simulate_day fuel self g) as [[[[l a] w] g']|e] eqn:Hday;
    cbn [bind]; [|reflexivity].
  destruct (simulate_day_mean_finite _ _ _ _ _ Hday) as [q Hq].
  cbn [snd] in Hq. subst w.
  cbn [app map]. eexists. eexists. eexists. split; [reflexivity|].
  repeat apply conj; apply np_mean_one.
Qed.

(** * Further properties of the code *)

(** ** Auxiliary facts *)

Lemma advance_advance_n k g : advance (advance_n k g) = advance_n (S k) g.
Proof.
  revert g. induction k as [|k IH]; intros g; [reflexivity|].
  cbn [advance_n] in *. apply IH.
Qed.

Lemma Qfloor_nonneg x : (0 <= x)%Q -> 0 <= Qfloor x.
Proof. intros Hx. apply (Qfloor_resp_le 0 x Hx). Qed.

Lemma nondecreasing_snoc l x :
  nondecreasing l -> Forall (fun p => (p <= x)%Q) l -> nondecreasing (l ++ [x]).
Proof.
  intros Hl Hall i j a b Hij Ha Hb.
  rewrite Forall_lookup in Hall.
  destruct (decide (j < length l)%nat) as [Hj|Hj].
  - rewrite lookup_app_l in Ha by lia. rewrite lookup_app_l in Hb by lia.
    apply (Hl i j); auto.
  - apply lookup_lt_Some in Hb as Hjl. rewrite length_app in Hjl. cbn in Hjl.
    assert (j = length l) as -> by lia.
    rewrite lookup_app_r in Hb by lia. rewrite Nat.sub_diag in Hb.
    injection Hb as <-.
    destruct (decide (i < length l)%nat) as [Hi|Hi].
    + rewrite lookup_app_l in Ha by lia. apply (Hall i), Ha.
    + assert (i = length l) as -> by lia.
      rewrite lookup_app_r in Ha by lia. rewrite Nat.sub_diag in Ha.
      injection Ha as <-. apply Qle_refl.
Qed.

Lemma nondecreasing_tail x l : nondecreasing (x :: l) -> nondecreasing l.
Proof.
  intros Hl i j a b Hij Ha Hb. apply (Hl (S i) (S j)); auto. lia.
Qed.

Lemma dict_add_keys d k v :
  map fst (dict_add d k v) =
  if decide (k ∈ map fst d) then map fst d else map fst d ++ [k].
Proof.
  induction d as [|[k' v'] d IH]; cbn [dict_add map fst app].
  - destruct (decide (k ∈ [])) as [Hin|_]; [inversion Hin|reflexivity].
  - destruct (decide (k' = k)) as [->|Hne]; cbn [map fst].
    + destruct (decide (k ∈ k :: map fst d)) as [_|Hout]; [reflexivity|].
      exfalso. apply Hout. left.
    + rewrite IH. destruct (decide (k ∈ map fst d)) as [Hin|Hout].
      * destruct (decide (k ∈ k' :: map fst d)) as [_|Hout']; [reflexivity|].
        exfalso. apply Hout'. right. exact Hin.
      * destruct (decide (k ∈ k' :: map fst d)) as [Hin'|_]; [|reflexivity].
        exfalso. apply elem_of_cons in Hin' as [->|Hin']; contradiction.
Qed.

Lemma dict_add_NoDup d k v :
  NoDup (map fst d) -> NoDup (map fst (dict_add d k v)).
Proof.
  intros Hd. rewrite dict_add_keys.
  destruct (decide (k ∈ map fst d)) as [Hin|Hout]; [exact Hd|].
  apply NoDup_app. split; [exact Hd|]. split.
  - intros x Hx Hx'. apply list_elem_of_singleton in Hx' as ->. contradiction.
  - apply NoDup_singleton.
Qed.

Lemma dict_add_buckets (n : nat) d k v :
  Forall (fun kv => (fst kv < n)%nat /\ (0 <= snd kv)%Q) d ->
  (k < n)%nat -> (0 <= v)%Q ->
  Forall (fun kv => (fst kv < n)%nat /\ (0 <= snd kv)%Q) (dict_add d k v).
Proof.
  intros Hd Hk Hv. induction Hd as [|[k' v'] d [Hk' Hv'] Hd IH]; cbn [dict_add].
  - constructor; [split; assumption|constructor].
  - cbn [fst snd] in *. destruct (decide (k' = k)).
    + constructor; [|exact Hd]. cbn [fst snd]. split; [exact Hk'|].
      lra.
    + constructor; [split; assumption|exact IH].
Qed.

Lemma count_kind_pos k (h : list Event) e :
  e ∈ h -> snd e = k -> (0 < count_kind k h)%nat.
Proof.
  intros Hin Hk. apply elem_of_Permutation in Hin as [h' Hp].
  rewrite Hp, count_kind_cons. destruct (decide (snd e = k)); [lia|contradiction].
Qed.

(** ** The further facts are kept by the loop *)

Lemma account_event_facts self n g0 s ev q :
  day_inv self s -> served_if_free s -> served_or_fresh s ->
  day_facts self n g0 s ->
  heap_ok q -> events s ≡ₚ ev :: q -> (forall y, y ∈ events s -> le_ev ev y) ->
  day_facts self n g0 (account_event s ev q).
Proof.
  intros Hinv Hsif Hsof Hf Hq Hperm Hmin.
  destruct (account_event_inv self s ev q Hinv Hq Hperm Hmin)
    as (Hinv1 & Hnow & Hbusy & Harr).
  destruct Hf as [Hclock Hsorted Hpast Hwaits Hfirst Hfresh Hcount Hdraws
                  Hkeys Hbuckets Hpend Hstart Harts Hhor].
  assert (Hin : ev ∈ events s) by (rewrite Hperm; left).
  assert (Hdt : (0 <= fst ev - actual_time s)%Q) by lra.
  assert (Hpast' : Forall (fun p => (p <= fst ev)%Q) (waiting_persons s)).
  { eapply Forall_impl; [exact Hpast|]. cbn. intros p Hp. lra. }
  assert (Hline : (length (waiting_persons s) < n)%nat).
  { destruct (free_worker s) eqn:Hfree.
    - rewrite (Hsif Hfree) in *. cbn [length] in *.
      destruct (snd ev) eqn:Hk; [|specialize (Hbusy eq_refl); discriminate].
      pose proof (count_kind_pos ARRIVE _ ev Hin Hk). lia.
    - destruct Hsof as [Hsome|(_ & Hfree' & _)]; [|congruence].
      destruct (people_awaiting_time s); [contradiction|]. cbn [length] in *. lia. }
  rewrite Hperm, count_kind_cons in Hcount.
  split; cbn [account_event people_awaiting_time free_worker actual_time
    total_articles waiting_persons events number_waiting_persons_in_time
    np_random]; auto.
  - lra.
  - destruct (is_ARRIVE (snd ev)); [|exact Hsorted].
    apply nondecreasing_snoc; assumption.
  - destruct (is_ARRIVE (snd ev)); [|exact Hpast'].
    apply Forall_app. split; [exact Hpast'|].
    constructor; [apply Qle_refl|constructor].
  - intros Hnone. destruct Hsof as [Hsome|(_ & _ & Hempty & Hkinds)];
      [contradiction|].
    rewrite Hempty. destruct (is_ARRIVE (snd ev)); [|constructor].
    constructor; [reflexivity|constructor].
  - destruct (snd ev) eqn:Hk; cbn [is_ARRIVE EventType_eqb].
    + destruct (decide (ARRIVE = ARRIVE)); [|congruence].
      rewrite length_app. cbn [length]. lia.
    + destruct (decide (FINISH = ARRIVE)); [congruence|]. lia.
  - apply dict_add_NoDup, Hkeys.
  - apply dict_add_buckets; assumption.
  - rewrite Forall_forall in *. intros y Hy. apply Hpend.
    rewrite Hperm. right. exact Hy.
  - intros _. rewrite Forall_forall in Hpend. apply Hpend, Hin.
  - destruct (free_worker s); [|exact Harts].
    assert (0 <= Qfloor ((fst ev - actual_time s) * 22 / 3600)).
    { apply Qfloor_nonneg. apply Qle_shift_div_l; [reflexivity|]. lra. }
    lia.
  - intros HT. destruct (snd ev) eqn:Hk.
    + etransitivity; [apply (inv_articles _ _ Hinv1)|].
      cbn [account_event actual_time]. apply Qfloor_resp_le.
      specialize (Harr eq_refl).
      apply Qmult_le_compat_r; [|discriminate].
      apply Qmult_le_compat_r; [|discriminate].
      apply Qlt_le_weak, Harr.
    + rewrite (Hbusy eq_refl). apply Hhor, HT.
Qed.

Lemma served_facts self n g0 s s' :
  day_facts self n g0 s -> served self s (Ok s') -> day_facts self n g0 s'.
Proof.
  intros Hf Hadm.
  inversion Hadm as [Hcase|person waiting q Hfree Hline Hsd Hq Hperm| |]; subst;
    [exact Hf|].
  destruct Hf as [Hclock Hsorted Hpast Hwaits Hfirst Hfresh Hcount Hdraws
                  Hkeys Hbuckets Hpend Hstart Harts Hhor].
  rewrite Hline in *.
  assert (Hnow : (inject_Z (arrival self g0 0) <= actual_time s)%Q).
  { apply Hstart. right. discriminate. }
  apply Forall_cons in Hpast as [Hperson Hpast].
  split; cbn [start_service people_awaiting_time free_worker actual_time
    total_articles waiting_persons events number_waiting_persons_in_time
    np_random]; auto.
  - eapply nondecreasing_tail, Hsorted.
  - apply Forall_app. split; [exact Hwaits|].
    constructor; [lra|constructor].
  - intros w Hw. destruct (people_awaiting_time s) as [|w0 ws] eqn:Hp.
    + cbn in Hw. injection Hw as <-.
      specialize (Hfresh eq_refl). apply Forall_cons in Hfresh as [Heq _].
      rewrite Heq. ring.
    + cbn in Hw. injection Hw as <-. apply Hfirst. reflexivity.
  - intros Hnone. apply app_eq_nil in Hnone as [_ Hnone]. discriminate.
  - rewrite Hperm, count_kind_app, length_app. cbn [length] in *.
    unfold service_end. rewrite count_kind_cons. cbn [snd].
    destruct (decide (FINISH = ARRIVE)); [congruence|].
    unfold count_kind at 2. cbn. lia.
  - rewrite Hdraws, advance_advance_n, length_app. cbn [length].
    f_equal. lia.
  - rewrite Hperm. apply Forall_app. split; [exact Hpend|].
    constructor; [|constructor].
    eapply Qle_trans; [exact Hnow|]. apply service_end_future, Hsd.
Qed.

Lemma day_iteration_facts self n g0 s s' :
  day_inv self s -> served_if_free s -> served_or_fresh s ->
  day_facts self n g0 s ->
  pq_empty (events s) = false ->
  day_iteration self s = Ok s' ->
  day_facts self n g0 s'.
Proof.
  intros Hinv Hsif Hsof Hf Hne Hit.
  pose proof (day_iteration_run self s Hinv Hne) as Hrun. rewrite Hit in Hrun.
  destruct Hrun as (ev & q & Hperm & Hmin & Hq & _ & Hadm & _).
  eapply served_facts; [|exact Hadm].
  apply account_event_facts; assumption.
Qed.

Lemma day_steps_facts self n g0 s s' :
  day_steps self s s' ->
  day_inv self s -> served_if_free s -> served_or_fresh s ->
  day_facts self n g0 s -> day_facts self n g0 s'.
Proof.
  induction 1 as [s|s s1 s2 Hne Hit Hsteps IH]; intros Hinv Hsif Hsof Hf;
    [exact Hf|].
  pose proof (day_iteration_run self s Hinv Hne) as Hrun. rewrite Hit in Hrun.
  destruct Hrun as (ev & q & _ & _ & _ & _ & _ & Hinv1 & Hsif1).
  apply IH; auto.
  - left. apply (day_iteration_served self s); auto.
  - apply (day_iteration_facts self n g0 s); auto.
Qed.

Lemma arrival_queue_length self g n : length (arrival_queue self g n) = n.
Proof. unfold arrival_queue. rewrite length_map, length_seq. reflexivity. Qed.

Lemma count_kind_all k (h : list Event) :
  Forall (fun e => snd e = k) h -> count_kind k h = length h.
Proof.
  induction 1 as [|e h He _ IH]; [reflexivity|].
  rewrite count_kind_cons, IH. destruct (decide (snd e = k)); [|contradiction].
  reflexivity.
Qed.

Lemma day_start_facts self g n :
  (forall k, (k < n)%nat -> arrival self g k < time self) ->
  day_facts self n g (day_start (arrival_queue self g n) (advance_n (S n) g)).
Proof.
  intros Hbelow.
  destruct (arrival_queue_ok self g n Hbelow) as [_ Hall].
  split; cbn [day_start people_awaiting_time free_worker actual_time
    total_articles waiting_persons events number_waiting_persons_in_time
    np_random length map]; auto.
  - apply Qle_refl.
  - intros i j a b _ Ha. discriminate.
  - intros w Hw. discriminate.
  - rewrite count_kind_all, arrival_queue_length; [reflexivity|].
    eapply Forall_impl; [exact Hall|]. intros e [Hk _]. exact Hk.
  - f_equal. lia.
  - constructor.
  - rewrite Forall_lookup. intros i e He.
    apply arrival_queue_lookup in He as [_ ->].
    unfold arrive_at. cbn [fst]. rewrite <- Zle_Qle. apply arrival_mono. lia.
  - intros [H|H]; contradiction.
  - reflexivity.
  - intros HT. apply Qfloor_nonneg.
    apply Qle_shift_div_l; [reflexivity|].
    assert (0 <= inject_Z (time self))%Q
      by (change 0%Q with (inject_Z 0); rewrite <- Zle_Qle; exact HT).
    lra.
Qed.

(** Every state of a day started by [run_day] satisfies the further facts,
    for the number of arrivals that were generated. *)
Lemma day_reaches_facts self fuel g s :
  day_reaches self fuel g s ->
  exists n,
    _generate_arrives fuel self g
      = Ok (arrival_queue self g n, advance_n (S n) g) /\
    (forall k, (k < n)%nat -> arrival self g k < time self) /\
    time self <= arrival self g n /\
    day_facts self n g s.
Proof.
  intros (arrives & g' & Hgen & Hsteps).
  pose proof Hgen as Hgen'.
  apply _generate_arrives_Ok in Hgen' as (_ & n & _ & Hbelow & Hstop & -> & ->).
  exists n. repeat apply conj; auto.
  destruct (arrival_queue_ok self g n Hbelow) as [Hheap Hall].
  destruct (day_start_inv self _ (advance_n (S n) g) Hheap Hall) as [Hinv Hsif].
  apply (day_steps_facts self n g _ _ Hsteps); auto.
  - right. cbn [day_start actual_time free_worker waiting_persons events].
    repeat apply conj; auto.
    eapply Forall_impl; [exact Hall|]. intros e [Hk _]. exact Hk.
  - apply day_start_facts, Hbelow.
Qed.

(** ** The persons of a day *)

(** X1. On a day that [run_day] completes, every person that arrived has
    been served: as many waiting times are recorded as arrivals were
    generated, nobody is left in the line, and the worker is free. *)
Theorem every_arrival_served fuel self g s :
  run_day fuel self g = Ok s ->
  exists n,
    _generate_arrives fuel self g
      = Ok (arrival_queue self g n, advance_n (S n) g) /\
    length (people_awaiting_time s) = n /\
    waiting_persons s = [] /\ free_worker s = true /\ events s = [].
Proof.
  intros Hrun. apply run_day_Ok in Hrun as (Hreach & Hnil & Hinv).
  destruct (day_reaches_inv _ _ _ _ Hreach) as [_ Hsif].
  destruct (day_reaches_facts _ _ _ _ Hreach) as (n & Hgen & _ & _ & Hf).
  exists n. split; [exact Hgen|].
  assert (Hfree : free_worker s = true).
  { pose proof (inv_finish _ _ Hinv) as Hfin. rewrite Hnil in Hfin.
    destruct (free_worker s); [reflexivity|discriminate]. }
  pose proof (df_count _ _ _ _ Hf) as Hcount.
  rewrite (Hsif Hfree), Hnil in Hcount. cbn in Hcount.
  repeat apply conj; auto. lia.
Qed.

Lemma every_arrival_served_witness :
  exists s,
    run_day 10 desk tied_arrivals = Ok s /\
    length (people_awaiting_time s) = 2%nat /\
    waiting_persons s = [] /\ free_worker s = true.
Proof.
  assert (Hrun : exists s, run_day 10 desk tied_arrivals = Ok s /\
                           length (people_awaiting_time s) = 2%nat).
  { eexists. split; [vm_compute; reflexivity|reflexivity]. }
  destruct Hrun as (s & Hrun & Hlen).
  destruct (every_arrival_served 10 desk tied_arrivals s Hrun)
    as (n & _ & _ & Hline & Hfree & _).
  exists s. repeat apply conj; assumption.
Defined.

(** X2. A day that returns has advanced the generator by one draw for every
    arrival, one for the draw that passed the horizon, and one for every
    service: [2 * n + 1] draws for [n] arrivals. *)
Theorem day_consumes_draws fuel self g r g' :
  simulate_day fuel self g = Ok (r, g') ->
  exists n,
    _generate_arrives fuel self g
      = Ok (arrival_queue self g n, advance_n (S n) g) /\
    g' = advance_n (2 * n + 1) g.
Proof.
  intros Hday. unfold simulate_day in Hday.
  destruct (run_day fuel self g) as [s|e] eqn:Hrun; cbn [bind] in Hday;
    [|discriminate].
  destruct (day_summary s); cbn [bind] in Hday; [|discriminate].
  injection Hday as _ <-.
  apply run_day_Ok in Hrun as (Hreach & Hnil & Hinv).
  destruct (day_reaches_inv _ _ _ _ Hreach) as [_ Hsif].
  destruct (day_reaches_facts _ _ _ _ Hreach) as (n & Hgen & _ & _ & Hf).
  exists n. split; [exact Hgen|].
  assert (Hfree : free_worker s = true).
  { pose proof (inv_finish _ _ Hinv) as Hfin. rewrite Hnil in Hfin.
    destruct (free_worker s); [reflexivity|discriminate]. }
  pose proof (df_count _ _ _ _ Hf) as Hcount.
  rewrite (Hsif Hfree), Hnil in Hcount. cbn in Hcount.
  rewrite (df_draws _ _ _ _ Hf). f_equal. lia.
Qed.

Lemma day_consumes_draws_witness :
  exists r g' n,
    simulate_day 10 desk tied_arrivals = Ok (r, g') /\
    cursor g' = 5%nat /\ g' = advance_n (2 * n + 1) tied_arrivals.
Proof.
  assert (Hday : exists r g',
    simulate_day 10 desk tied_arrivals = Ok (r, g') /\ cursor g' = 5%nat).
  { eexists. eexists. split; [vm_compute; reflexivity|reflexivity]. }
  destruct Hday as (r & g' & Hday & Hcursor).
  destruct (day_consumes_draws 10 desk tied_arrivals r g' Hday)
    as (n & _ & Hg).
  exists r, g', n. repeat apply conj; assumption.
Defined.

(** X3. At every evaluation of the loop test of a day started by
    [run_day], and hence whenever a person is taken from the line, the
    line lists arrival times in the order of arrival, none of them after
    the current time: the person at its head has waited longest. *)
Theorem line_in_arrival_order self fuel g s :
  day_reaches self fuel g s ->
  nondecreasing (waiting_persons s) /\
  Forall (fun p => (p <= actual_time s)%Q) (waiting_persons s).
Proof.
  intros Hreach.
  destruct (day_reaches_facts _ _ _ _ Hreach) as (n & _ & _ & _ & Hf).
  split; [apply (df_line_sorted _ _ _ _ Hf)|apply (df_line_past _ _ _ _ Hf)].
Qed.

(** X4. Every waiting time recorded during a day started by [run_day] is
    non-negative, and the first person of the day does not wait. *)
Theorem waiting_times_nonnegative self fuel g s :
  day_reaches self fuel g s ->
  Forall (fun w => (0 <= w)%Q) (people_awaiting_time s) /\
  (forall w, people_awaiting_time s !! 0%nat = Some w -> (w == 0)%Q).
Proof.
  intros Hreach.
  destruct (day_reaches_facts _ _ _ _ Hreach) as (n & _ & _ & _ & Hf).
  split; [apply (df_waits _ _ _ _ Hf)|apply (df_first _ _ _ _ Hf)].
Qed.

(** X5. The histogram of a day with [n] arrivals has no key twice, every
    key is a line length below [n], and every duration is non-negative. *)
Theorem histogram_buckets self fuel g s :
  day_reaches self fuel g s ->
  exists n,
    _generate_arrives fuel self g
      = Ok (arrival_queue self g n, advance_n (S n) g) /\
    NoDup (map fst (number_waiting_persons_in_time s)) /\
    Forall (fun kv => (fst kv < n)%nat /\ (0 <= snd kv)%Q)
           (number_waiting_persons_in_time s).
Proof.
  intros Hreach.
  destruct (day_reaches_facts _ _ _ _ Hreach) as (n & Hgen & _ & _ & Hf).
  exists n. split; [exact Hgen|].
  split; [apply (df_keys _ _ _ _ Hf)|apply (df_buckets _ _ _ _ Hf)].
Qed.

Lemma line_in_arrival_order_witness :
  exists s,
    day_reaches desk 10 tied_arrivals s /\
    waiting_persons s = [5%Q] /\ actual_time s = 5%Q /\
    Forall (fun p => (p <= actual_time s)%Q) (waiting_persons s).
Proof.
  assert (Hreach : exists s1 s2,
    day_iteration desk
      (day_start [(5%Q, ARRIVE); (5%Q, ARRIVE)] (advance_n 3 tied_arrivals))
      = Ok s1 /\
    day_iteration desk s1 = Ok s2 /\
    day_reaches desk 10 tied_arrivals s2).
  { eexists. eexists. split; [vm_compute; reflexivity|].
    split; [vm_compute; reflexivity|].
    exists [(5%Q, ARRIVE); (5%Q, ARRIVE)], (advance_n 3 tied_arrivals).
    split; [vm_compute; reflexivity|].
    eapply day_steps_next; [reflexivity|vm_compute; reflexivity|].
    eapply day_steps_next; [reflexivity|vm_compute; reflexivity|constructor]. }
  destruct Hreach as (s1 & s2 & Hs1 & Hs2 & Hreach).
  injection Hs1 as <-. injection Hs2 as <-.
  eexists. split; [exact Hreach|]. split; [reflexivity|]. split; [reflexivity|].
  apply (line_in_arrival_order desk 10 tied_arrivals _ Hreach).
Defined.

Lemma waiting_times_nonnegative_witness :
  exists s,
    run_day 10 desk tied_arrivals = Ok s /\
    people_awaiting_time s = [0%Q; 600%Q] /\
    Forall (fun w => (0 <= w)%Q) (people_awaiting_time s).
Proof.
  assert (Hrun : exists s, run_day 10 desk tied_arrivals = Ok s /\
                           people_awaiting_time s = [0%Q; 600%Q]).
  { eexists. split; [vm_compute; reflexivity|reflexivity]. }
  destruct Hrun as (s & Hrun & Hpeople).
  exists s. split; [exact Hrun|]. split; [exact Hpeople|].
  apply (waiting_times_nonnegative desk 10 tied_arrivals s).
  apply run_day_Ok, Hrun.
Defined.

Lemma histogram_buckets_witness :
  exists s,
    run_day 10 desk tied_arrivals = Ok s /\
    number_waiting_persons_in_time s = [(0%nat, 905%Q); (1%nat, 600%Q)] /\
    NoDup (map fst (number_waiting_persons_in_time s)).
Proof.
  assert (Hrun : exists s, run_day 10 desk tied_arrivals = Ok s /\
    number_waiting_persons_in_time s = [(0%nat, 905%Q); (1%nat, 600%Q)]).
  { eexists. split; [vm_compute; reflexivity|reflexivity]. }
  destruct Hrun as (s & Hrun & Hhist).
  exists s. split; [exact Hrun|]. split; [exact Hhist|].
  destruct (histogram_buckets desk 10 tied_arrivals s) as (n & _ & Hkeys & _).
  - apply run_day_Ok, Hrun.
  - exact Hkeys.
Defined.

(** ** The statistics of a day *)

Lemma weighted_fold_bounds (M : Q) (d : list (nat * Q)) :
  Forall (fun kv => (inject_Z (Z.of_nat (fst kv)) <= M)%Q /\ (0 <= snd kv)%Q) d ->
  forall acc,
    (acc <= fold_left
       (fun sum_t it => sum_t + inject_Z (Z.of_nat (fst it)) * snd it) d acc)%Q /\
    (fold_left
       (fun sum_t it => sum_t + inject_Z (Z.of_nat (fst it)) * snd it) d acc
     <= acc + M * Qsum (map snd d))%Q.
Proof.
  induction 1 as [|[k v] d [Hk Hv] Hd IH]; intros acc; cbn [fold_left map Qsum foldr].
  - split; [apply Qle_refl|]. lra.
  - cbn [fst snd] in *. fold (Qsum (map snd d)).
    destruct (IH (acc + inject_Z (Z.of_nat k) * v)%Q) as [Hlo Hhi].
    assert (Hk0 : (0 <= inject_Z (Z.of_nat k))%Q).
    { change 0%Q with (inject_Z 0). rewrite <- Zle_Qle. lia. }
    assert (Hkv : (0 <= inject_Z (Z.of_nat k) * v)%Q)
      by (apply Qmult_le_0_compat; assumption).
    assert (HMv : (inject_Z (Z.of_nat k) * v <= M * v)%Q)
      by (apply Qmult_le_compat_r; assumption).
    split; [lra|].
    eapply Qle_trans; [exact Hhi|]. lra.
Qed.

Lemma Qsum_nonneg l : Forall (fun w => (0 <= w)%Q) l -> (0 <= Qsum l)%Q.
Proof.
  induction 1 as [|w l Hw _ IH]; cbn [Qsum foldr]; [apply Qle_refl|].
  fold (Qsum l). lra.
Qed.

Lemma np_mean_Fin_value l :
  l <> [] ->
  np_mean (map Fin l) = Fin (Qsum l / inject_Z (Z.of_nat (length l))).
Proof.
  intros Hne. destruct l as [|q l]; [contradiction|].
  unfold np_mean. cbn [map finite_values]. rewrite finite_values_Fin. reflexivity.
Qed.

Lemma mean_nonneg l :
  l <> [] -> Forall (fun w => (0 <= w)%Q) l ->
  (0 <= Qsum l / inject_Z (Z.of_nat (length l)))%Q.
Proof.
  intros Hne Hall. apply Qle_shift_div_l.
  - change 0%Q with (inject_Z 0). rewrite <- Zlt_Qlt.
    destruct l; [contradiction|]. cbn [length]. lia.
  - rewrite Qmult_0_l. apply Qsum_nonneg, Hall.
Qed.

(** What a day that returns went through. *)
Lemma simulate_day_Ok_inv fuel self g l a w g' :
  simulate_day fuel self g = Ok (l, a, w, g') ->
  exists s n,
    run_day fuel self g = Ok s /\
    _generate_arrives fuel self g
      = Ok (arrival_queue self g n, advance_n (S n) g) /\
    (forall k, (k < n)%nat -> arrival self g k < time self) /\
    day_inv self s /\ day_facts self n g s /\
    people_awaiting_time s <> [] /\ (1 <= n)%nat /\
    (0 < actual_time s)%Q /\
    l = (weighted_sum (number_waiting_persons_in_time s) / actual_time s)%Q /\
    a = total_articles s /\
    w = np_mean (map Fin (people_awaiting_time s)) /\
    g' = np_random s.
Proof.
  intros Hday. unfold simulate_day in Hday.
  destruct (run_day fuel self g) as [s|e] eqn:Hrun; cbn [bind] in Hday;
    [|discriminate].
  unfold day_summary in Hday.
  destruct (Qeq_bool (actual_time s) 0) eqn:Hzero; cbn [bind] in Hday;
    [discriminate|].
  injection Hday as <- <- <- <-.
  pose proof (run_day_served _ _ _ _ Hrun) as Hsof.
  pose proof Hrun as Hrun'.
  apply run_day_Ok in Hrun' as (Hreach & Hnil & Hinv).
  destruct (day_reaches_facts _ _ _ _ Hreach) as (n & Hgen & Hbelow & _ & Hf).
  assert (Hsome : people_awaiting_time s <> []).
  { destruct Hsof as [Hsome|(Hnow & _)]; [exact Hsome|].
    rewrite Hnow in Hzero. discriminate. }
  exists s, n. repeat apply conj; auto.
  - pose proof (df_count _ _ _ _ Hf).
    destruct (people_awaiting_time s); [contradiction|]. cbn [length] in *. lia.
  - apply Qeq_bool_neq in Hzero. pose proof (df_clock _ _ _ _ Hf) as Hclock.
    apply Qle_lteq in Hclock as [Hlt|Heq]; [exact Hlt|].
    exfalso. apply Hzero. symmetry. exact Heq.
Qed.

(** X6. The time-weighted mean line length that [simulate_day] returns for
    a day with [n] arrivals lies between [0] and [n - 1]. *)
Theorem line_length_range fuel self g l a w g' :
  simulate_day fuel self g = Ok (l, a, w, g') ->
  exists n,
    _generate_arrives fuel self g
      = Ok (arrival_queue self g n, advance_n (S n) g) /\
    (0 <= l)%Q /\ (l <= inject_Z (Z.of_nat n) - 1)%Q.
Proof.
  intros Hday.
  destruct (simulate_day_Ok_inv _ _ _ _ _ _ _ Hday)
    as (s & n & _ & Hgen & _ & Hinv & Hf & _ & Hn & Hpos & -> & _).
  exists n. split; [exact Hgen|].
  destruct (weighted_fold_bounds (inject_Z (Z.of_nat n) - 1)
              (number_waiting_persons_in_time s)) with (acc := 0%Q)
    as [Hlo Hhi].
  { eapply Forall_impl; [apply (df_buckets _ _ _ _ Hf)|].
    intros [k v] [Hk Hv]. cbn [fst snd] in *. split; [|exact Hv].
    assert (H1 : (inject_Z (Z.of_nat k) <= inject_Z (Z.of_nat n + -1))%Q)
      by (rewrite <- Zle_Qle; lia).
    rewrite inject_Z_plus in H1. change (inject_Z (-1)) with (-1 # 1)%Q in H1.
    lra. }
  fold (weighted_sum (number_waiting_persons_in_time s)) in Hlo, Hhi.
  rewrite (inv_hist _ _ Hinv) in Hhi.
  split.
  - apply Qle_shift_div_l; [exact Hpos|]. lra.
  - apply Qle_shift_div_r; [exact Hpos|]. lra.
Qed.

Lemma line_length_range_witness :
  exists l a w g',
    simulate_day 10 desk tied_arrivals = Ok (l, a, w, g') /\
    (l == 600 # 1505)%Q /\ (0 <= l)%Q.
Proof.
  assert (Hday : exists l a w g',
    simulate_day 10 desk tied_arrivals = Ok (l, a, w, g') /\
    (l == 600 # 1505)%Q).
  { eexists. eexists. eexists. eexists.
    split; [vm_compute; reflexivity|reflexivity]. }
  destruct Hday as (l & a & w & g' & Hday & Hl).
  exists l, a, w, g'. split; [exact Hday|]. split; [exact Hl|].
  destruct (line_length_range 10 desk tied_arrivals l a w g' Hday)
    as (n & _ & Hlo & _).
  exact Hlo.
Defined.

(** X7. The mean waiting time that [simulate_day] returns is a number, the
    arithmetic mean of the recorded waiting times, and it is not
    negative. *)
Theorem mean_wait_nonnegative fuel self g l a w g' :
  simulate_day fuel self g = Ok (l, a, w, g') ->
  exists s q,
    run_day fuel self g = Ok s /\
    w = Fin q /\
    q = (Qsum (people_awaiting_time s)
         / inject_Z (Z.of_nat (length (people_awaiting_time s))))%Q /\
    (0 <= q)%Q.
Proof.
  intros Hday.
  destruct (simulate_day_Ok_inv _ _ _ _ _ _ _ Hday)
    as (s & n & Hrun & _ & _ & _ & Hf & Hsome & _ & _ & _ & _ & -> & _).
  exists s. eexists. split; [exact Hrun|].
  split; [apply np_mean_Fin_value, Hsome|]. split; [reflexivity|].
  apply mean_nonneg; [exact Hsome|apply (df_waits _ _ _ _ Hf)].
Qed.

Lemma mean_wait_nonnegative_witness :
  exists l a w g',
    simulate_day 10 desk tied_arrivals = Ok (l, a, w, g') /\
    exists q, w = Fin q /\ (q == 300)%Q /\ (0 <= q)%Q.
Proof.
  assert (Hday : exists l a w g',
    simulate_day 10 desk tied_arrivals = Ok (l, a, w, g') /\
    npfloat_eq w (Fin 300)).
  { eexists. eexists. eexists. eexists.
    split; [vm_compute; reflexivity|reflexivity]. }
  destruct Hday as (l & a & w & g' & Hday & Hw).
  exists l, a, w, g'. split; [exact Hday|].
  destruct (mean_wait_nonnegative 10 desk tied_arrivals l a w g' Hday)
    as (s & q & _ & -> & _ & Hq).
  exists q. split; [reflexivity|]. split; [exact Hw|exact Hq].
Defined.

(** X8. The articles that [simulate_day] returns are not negative and do
    not exceed what the horizon allows at 22 an hour:
    [floor(self.time * 22 / 3600)]. *)
Theorem articles_within_horizon fuel self g l a w g' :
  simulate_day fuel self g = Ok (l, a, w, g') ->
  0 <= a <= Qfloor (inject_Z (time self) * 22 / 3600).
Proof.
  intros Hday.
  destruct (simulate_day_Ok_inv _ _ _ _ _ _ _ Hday)
    as (s & n & _ & _ & Hbelow & _ & Hf & _ & Hn & _ & _ & -> & _).
  split; [apply (df_articles _ _ _ _ Hf)|].
  apply (df_horizon _ _ _ _ Hf).
  pose proof (Hbelow 0%nat ltac:(lia)). pose proof (arrival_nonneg self g 0). lia.
Qed.

Lemma articles_within_horizon_witness :
  exists l a w g',
    simulate_day 10 long_desk short_service = Ok (l, a, w, g') /\
    a = 22 /\ 0 <= a <= Qfloor (inject_Z (time long_desk) * 22 / 3600).
Proof.
  assert (Hday : exists l a w g',
    simulate_day 10 long_desk short_service = Ok (l, a, w, g') /\ a = 22).
  { eexists. eexists. eexists. eexists.
    split; [vm_compute; reflexivity|reflexivity]. }
  destruct Hday as (l & a & w & g' & Hday & Ha).
  exists l, a, w, g'. split; [exact Hday|]. split; [exact Ha|].
  apply (articles_within_horizon 10 long_desk short_service l a w g' Hday).
Defined.

(** X9. A day whose first person arrives at a positive time before the
    horizon, and whose loop completes, returns its statistics:
    [ZeroDivisionError] needs a final clock of zero. *)
Theorem simulate_day_returns fuel self g s :
  run_day fuel self g = Ok s ->
  0 < arrival self g 0 < time self ->
  exists r, simulate_day fuel self g = Ok (r, np_random s).
Proof.
  intros Hrun [Hpos Hbefore].
  unfold simulate_day. rewrite Hrun. cbn [bind].
  pose proof (run_day_served _ _ _ _ Hrun) as Hsof.
  apply run_day_Ok in Hrun as (Hreach & Hnil & Hinv).
  destruct (day_reaches_inv _ _ _ _ Hreach) as [_ Hsif].
  destruct (day_reaches_facts _ _ _ _ Hreach) as (n & _ & _ & Hstop & Hf).
  assert (Hn : n <> 0%nat) by (intros ->; lia).
  assert (Hfree : free_worker s = true).
  { pose proof (inv_finish _ _ Hinv) as Hfin. rewrite Hnil in Hfin.
    destruct (free_worker s); [reflexivity|discriminate]. }
  pose proof (df_count _ _ _ _ Hf) as Hcount.
  rewrite (Hsif Hfree), Hnil in Hcount. cbn in Hcount.
  assert (Hsome : people_awaiting_time s <> []).
  { intros Hnone. rewrite Hnone in Hcount. cbn in Hcount. lia. }
  assert (Hclock : (0 < actual_time s)%Q).
  { eapply Qlt_le_trans; [|apply (df_started _ _ _ _ Hf); left; exact Hsome].
    change 0%Q with (inject_Z 0). rewrite <- Zlt_Qlt. exact Hpos. }
  unfold day_summary.
  destruct (Qeq_bool (actual_time s) 0) eqn:Hzero.
  - apply Qeq_bool_eq in Hzero. rewrite Hzero in Hclock.
    exfalso. apply (Qlt_irrefl 0), Hclock.
  - cbn [bind]. eauto.
Qed.

Lemma simulate_day_returns_witness :
  exists s r,
    run_day 10 desk one_long_service = Ok s /\
    simulate_day 10 desk one_long_service = Ok (r, np_random s).
Proof.
  assert (Hrun : exists s, run_day 10 desk one_long_service = Ok s).
  { eexists. vm_compute. reflexivity. }
  destruct Hrun as [s Hrun].
  destruct (simulate_day_returns 10 desk one_long_service s Hrun) as [r Hr].
  - vm_compute. split; reflexivity.
  - exists s, r. split; [exact Hrun|exact Hr].
Defined.

(** ** Exceptions and termination *)







(** ** Conversion of the configuration *)





(** ** A day with one arrival *)

(** X13. A day with exactly one arrival, at [t], and a service delay that
    is not negative always completes: the person does not wait, the day
    ends at [t + d] for the service time [d] that is drawn, the articles
    are those of the idle time before [t], all the time is recorded
    against an empty line, and three draws are used. *)
Theorem single_arrival_day fuel self g :
  valid_mean (_person_delay self) ->
  0 <= _service_delay self ->
  arrival self g 0 < time self <= arrival self g 1 ->
  (1 <= fuel)%nat ->
  let t := inject_Z (arrival self g 0) in
  let v := current (advance_n 2 g) in
  let d := (inject_Z (_service_delay self)
            * (Z.of_N (v_exp_num v) # v_exp_den v))%Q in
  exists s w b,
    run_day fuel self g = Ok s /\
    people_awaiting_time s = [w] /\ (w == 0)%Q /\
    (actual_time s == t + d)%Q /\
    total_articles s = Qfloor (t * 22 / 3600) /\
    number_waiting_persons_in_time s = [(0%nat, b)] /\ (b == t + d)%Q /\
    np_random s = advance_n 3 g.
Proof.
  intros Hvalid Hsd [Hbefore Hafter] Hfuel t v d.
  unfold run_day.
  rewrite (_generate_arrives_run self g 1 fuel Hvalid); auto.
  2: { intros k Hk. replace k with 0%nat by lia. exact Hbefore. }
  cbn [bind].
  change (arrival_queue self g 1) with [arrive_at (arrival self g 0)].
  change (passes_left (day_start [arrive_at (arrival self g 0)] (advance_n 2 g)))
    with 2%nat.
  cbn [day_loop pq_empty day_start events].
  unfold day_iteration at 1.
  change (handle_event
            (day_start [arrive_at (arrival self g 0)] (advance_n 2 g)))
    with (Ok (account_event
                (day_start [arrive_at (arrival self g 0)] (advance_n 2 g))
                (arrive_at (arrival self g 0)) [])).
  cbn [bind].
  unfold serve_next at 1.
  cbn [account_event day_start free_worker waiting_persons is_FINISH is_ARRIVE
       arrive_at snd fst EventType_eqb app actual_time events np_random
       people_awaiting_time total_articles number_waiting_persons_in_time
       length dict_add].
  unfold np_random_exponential.
  destruct (Z.ltb_spec (_service_delay self) 0) as [Hneg|_]; [lia|].
  cbn [bind]. fold v. fold d. fold t.
  change (pq_put [] ((d + t)%Q, FINISH)) with (Ok [((d + t)%Q, FINISH)]).
  cbn [bind start_service events pq_empty].
  unfold day_iteration at 1.
  change (handle_event ?s)
    with (Ok (account_event s ((d + t)%Q, FINISH) [])) at 1.
  cbn [bind].
  unfold serve_next at 1.
  cbn [account_event start_service free_worker waiting_persons is_FINISH
       is_ARRIVE snd fst EventType_eqb app actual_time events np_random
       people_awaiting_time total_articles number_waiting_persons_in_time
       length dict_add bind pq_empty].
  eexists. eexists. eexists. split; [reflexivity|].
  cbn [account_event start_service day_start free_worker waiting_persons
       is_FINISH is_ARRIVE arrive_at snd fst EventType_eqb app actual_time
       events np_random people_awaiting_time total_articles
       number_waiting_persons_in_time length dict_add].
  destruct (decide (0%nat = 0%nat)) as [_|Hne]; [|congruence].
  split; [reflexivity|]. split; [unfold t; ring|]. split; [ring|].
  split; [apply Qfloor_comp; unfold t; field|]. split; [reflexivity|].
  split; [unfold t; ring|reflexivity].
Qed.

Lemma single_arrival_day_witness :
  exists s,
    run_day 10 desk one_long_service = Ok s /\ (actual_time s == 9000)%Q.
Proof.
  destruct (single_arrival_day 10 desk one_long_service)
    as (s & w & b & Hrun & _ & _ & Hclock & _).
  - unfold valid_mean. vm_compute. split; discriminate.
  - vm_compute. discriminate.
  - vm_compute. split; [reflexivity|discriminate].
  - lia.
  - exists s. split; [exact Hrun|]. rewrite Hclock. vm_compute. reflexivity.
Defined.

(** ** Several days *)

(** X14. With a number of days that is not positive [simulate] simulates
    nothing: it returns [nan] three times and leaves the generator as it
    was. *)
Theorem simulate_no_days fuel self days g :
  days <= 0 -> simulate fuel self days g = Ok (NaN, NaN, NaN, g).
Proof.
  intros Hdays. unfold simulate. rewrite Z2Nat.nonpos by exact Hdays.
  reflexivity.
Qed.

Lemma simulate_no_days_witness :
  simulate 10 desk (-3) one_long_service = Ok (NaN, NaN, NaN, one_long_service).
Proof.
  apply (simulate_no_days 10 desk (-3) one_long_service). lia.
Defined.

Lemma simulate_day_empty_queue fuel self g :
  valid_mean (_person_delay self) ->
  time self <= gap self g ->
  simulate_day fuel self g = Err ZeroDivisionError.
Proof.
  intros Hvalid Hlate. unfold simulate_day, run_day.
  rewrite (_generate_arrives_run self g 0 fuel Hvalid
             ltac:(intros; lia) Hlate ltac:(lia)).
  reflexivity.
Qed.

(** X15. [simulate] raises what its first day raises, so a first day
    without an arrival makes it raise [ZeroDivisionError] whatever the
    number of days; with a horizon that is not positive every day is such
    a day. *)
Theorem simulate_first_day_raises fuel self days g :
  0 < days ->
  (forall e, simulate_day fuel self g = Err e ->
             simulate fuel self days g = Err e) /\
  (valid_mean (_person_delay self) ->
   time self <= gap self g \/ time self <= 0 ->
   simulate fuel self days g = Err ZeroDivisionError).
Proof.
  intros Hdays.
  assert (Hfirst : forall e, simulate_day fuel self g = Err e ->
                             simulate fuel self days g = Err e).
  { intros e Hday. unfold simulate.
    destruct (Z.to_nat days) as [|k] eqn:Hk; [lia|].
    cbn [simulate_loop]. rewrite Hday. reflexivity. }
  split; [exact Hfirst|].
  intros Hvalid Hlate. apply Hfirst, simulate_day_empty_queue; [exact Hvalid|].
  destruct Hlate as [Hlate|Hlate]; [exact Hlate|].
  pose proof (gap_nonneg self g). lia.
Qed.

Lemma simulate_first_day_raises_witness :
  simulate 10 quiet_desk 100 no_arrival = Err ZeroDivisionError.
Proof.
  apply (proj2 (simulate_first_day_raises 10 quiet_desk 100 no_arrival
                  ltac:(lia))).
  - unfold valid_mean. vm_compute. split; discriminate.
  - left. vm_compute. discriminate.
Defined.

Lemma simulate_day_values fuel self g l a w g' :
  simulate_day fuel self g = Ok (l, a, w, g') ->
  (0 <= l)%Q /\ 0 <= a /\ finite_nonneg w.
Proof.
  intros Hday.
  destruct (simulate_day_Ok_inv _ _ _ _ _ _ _ Hday)
    as (s & n & _ & _ & _ & Hinv & Hf & Hsome & _ & Hpos & -> & -> & -> & _).
  split; [|split].
  - destruct (weighted_fold_bounds (inject_Z (Z.of_nat n))
                (number_waiting_persons_in_time s)) with (acc := 0%Q)
      as [Hlo _].
    { eapply Forall_impl; [apply (df_buckets _ _ _ _ Hf)|].
      intros [k v] [Hk Hv]. cbn [fst snd] in *. split; [|exact Hv].
      rewrite <- Zle_Qle. lia. }
    fold (weighted_sum (number_waiting_persons_in_time s)) in Hlo.
    apply Qle_shift_div_l; [exact Hpos|]. lra.
  - apply (df_articles _ _ _ _ Hf).
  - eexists. split; [apply np_mean_Fin_value, Hsome|].
    apply mean_nonneg; [exact Hsome|apply (df_waits _ _ _ _ Hf)].
Qed.

Lemma simulate_loop_values fuel self : forall days ws ls arts g ws' ls' arts' g',
  Forall finite_nonneg ws ->
  Forall (fun l => (0 <= l)%Q) ls ->
  Forall (fun a => 0 <= a) arts ->
  simulate_loop days fuel self ws ls arts g = Ok (ws', ls', arts', g') ->
  Forall finite_nonneg ws' /\
  Forall (fun l => (0 <= l)%Q) ls' /\
  Forall (fun a => 0 <= a) arts' /\
  length ws' = (length ws + days)%nat /\
  length ls' = (length ls + days)%nat /\
  length arts' = (length arts + days)%nat.
Proof.
  induction days as [|days IH]; intros ws ls arts g ws' ls' arts' g' Hw Hl Ha Hrun;
    cbn [simulate_loop] in Hrun.
  - injection Hrun as <- <- <- <-. repeat apply conj; auto.
  - destruct (simulate_day fuel self g) as [[[[l a] w] g1]|e] eqn:Hday;
      cbn [bind] in Hrun; [|discriminate].
    destruct (simulate_day_values _ _ _ _ _ _ _ Hday) as (Hl1 & Ha1 & Hw1).
    apply IH in Hrun as (Hw' & Hl' & Ha' & Hlw & Hll & Hla).
    + rewrite length_app in Hlw, Hll, Hla. cbn [length] in *.
      repeat apply conj; auto; lia.
    + apply Forall_app. split; [exact Hw|]. constructor; [exact Hw1|constructor].
    + apply Forall_app. split; [exact Hl|]. constructor; [exact Hl1|constructor].
    + apply Forall_app. split; [exact Ha|]. constructor; [exact Ha1|constructor].
Qed.

Lemma finite_nonneg_list ws :
  Forall finite_nonneg ws ->
  exists qs, ws = map Fin qs /\ Forall (fun q => (0 <= q)%Q) qs.
Proof.
  induction 1 as [|w ws (q & -> & Hq) _ (qs & -> & Hqs)].
  - exists []. split; [reflexivity|constructor].
  - exists (q :: qs). split; [reflexivity|constructor; assumption].
Qed.

Lemma np_mean_nonneg qs :
  qs <> [] -> Forall (fun q => (0 <= q)%Q) qs -> finite_nonneg (np_mean (map Fin qs)).
Proof.
  intros Hne Hall. eexists. split; [apply np_mean_Fin_value, Hne|].
  apply mean_nonneg; assumption.
Qed.

(** X16. For a positive number of days, the three values that [simulate]
    returns are numbers, never [nan], and none of them is negative. *)
Theorem simulate_means_nonnegative fuel self days g w l a g' :
  0 < days ->
  simulate fuel self days g = Ok (w, l, a, g') ->
  finite_nonneg w /\ finite_nonneg l /\ finite_nonneg a.
Proof.
  intros Hdays Hsim. unfold simulate in Hsim.
  destruct (simulate_loop (Z.to_nat days) fuel self [] [] [] g)
    as [[[[ws ls] arts] g1]|e] eqn:Hloop; cbn [bind] in Hsim; [|discriminate].
  injection Hsim as <- <- <- <-.
  destruct (simulate_loop_values fuel self _ _ _ _ _ _ _ _ _
              (Forall_nil_2 _) (Forall_nil_2 _) (Forall_nil_2 _) Hloop)
    as (Hw & Hl & Ha & Hlw & Hll & Hla).
  cbn [length] in Hlw, Hll, Hla.
  assert (Hpos : (0 < Z.to_nat days)%nat) by lia.
  destruct (finite_nonneg_list ws Hw) as (qs & -> & Hqs).
  rewrite length_map in Hlw.
  split; [|split].
  - apply np_mean_nonneg; [|exact Hqs]. intros ->. cbn in Hlw. lia.
  - apply np_mean_nonneg; [|exact Hl]. intros ->. cbn in Hll. lia.
  - rewrite <- (map_map inject_Z Fin).
    apply np_mean_nonneg.
    + intros Hnil. apply map_eq_nil in Hnil. subst arts. cbn in Hla. lia.
    + apply Forall_map. eapply Forall_impl; [exact Ha|].
      intros z Hz. cbn. change 0%Q with (inject_Z 0). rewrite <- Zle_Qle. exact Hz.
Qed.

Lemma simulate_means_nonnegative_witness :
  exists w l a g',
    simulate 10 desk 1 tied_arrivals = Ok (w, l, a, g') /\
    npfloat_eq w (Fin 300) /\ finite_nonneg w.
Proof.
  assert (Hsim : exists w l a g',
    simulate 10 desk 1 tied_arrivals = Ok (w, l, a, g') /\
    npfloat_eq w (Fin 300)).
  { eexists. eexists. eexists. eexists.
    split; [vm_compute; reflexivity|reflexivity]. }
  destruct Hsim as (w & l & a & g' & Hsim & Hw).
  exists w, l, a, g'. split; [exact Hsim|]. split; [exact Hw|].
  apply (simulate_means_nonnegative 10 desk 1 tied_arrivals w l a g');
    [lia|exact Hsim].
Defined.

(** ** The order of service *)

Lemma account_event_fifo self n g0 s ev q :
  day_inv self s -> fifo_inv self n g0 s ->
  heap_ok q -> events s ≡ₚ ev :: q -> (forall y, y ∈ events s -> le_ev ev y) ->
  fifo_inv self n g0 (account_event s ev q).
Proof.
  intros Hinv [Hline Hpend Hstart Horder] Hq Hperm Hmin.
  destruct (account_event_inv self s ev q Hinv Hq Hperm Hmin)
    as (_ & Hnow & _ & _).
  set (p := length (people_awaiting_time s)) in *.
  set (w := length (waiting_persons s)) in *.
  destruct ev as [t [|]].
  - (* an arrival: it is the next one in the order of the draws *)
    assert (Hin : (t, ARRIVE) ∈ filter (fun e => snd e = ARRIVE) (events s)).
    { apply list_elem_of_filter. split; [reflexivity|]. rewrite Hperm. left. }
    pose proof Hin as Hin'. rewrite Hpend in Hin'.
    apply list_elem_of_fmap in Hin' as (k & Hev & Hk).
    apply elem_of_seq in Hk.
    assert (Hnext : arrive_at (arrival self g0 (p + w)) ∈ events s).
    { assert (H0 : arrive_at (arrival self g0 (p + w))
                   ∈ filter (fun e => snd e = ARRIVE) (events s)).
      { rewrite Hpend. apply list_elem_of_fmap. exists (p + w)%nat.
        split; [reflexivity|]. apply elem_of_seq. lia. }
      apply list_elem_of_filter in H0 as [_ H0]. exact H0. }
    apply Hmin in Hnext. unfold le_ev in Hnext. rewrite Hev in Hnext.
    unfold arrive_at in Hnext. cbn [fst] in Hnext. rewrite <- Zle_Qle in Hnext.
    pose proof (arrival_mono self g0 (p + w) k ltac:(lia)) as Hmono.
    assert (Hsame : arrival self g0 k = arrival self g0 (p + w)) by lia.
    unfold arrive_at in Hev. rewrite Hsame in Hev. injection Hev as ->.
    split; cbn [account_event people_awaiting_time waiting_persons events
      actual_time is_ARRIVE snd fst EventType_eqb]; fold p.
    + intros i x Hx. apply lookup_snoc_Some in Hx as [[_ Hx]|[-> <-]].
      * apply Hline, Hx.
      * reflexivity.
    + rewrite length_app. cbn [length]. fold w.
      rewrite Hperm in Hpend.
      rewrite filter_cons_True in Hpend by reflexivity.
      replace (n - (p + w))%nat with (S (n - (p + (w + 1)))) in Hpend by lia.
      cbn [seq map] in Hpend. unfold arrive_at in Hpend at 1.
      apply Permutation_cons_inv in Hpend.
      replace (p + (w + 1))%nat with (S (p + w)) by lia.
      replace (n - S (p + w))%nat with (n - (p + (w + 1)))%nat by lia.
      exact Hpend.
    + intros i x Hx. eapply Qle_trans; [apply (Hstart i x Hx)|exact Hnow].
    + exact Horder.
  - (* an end of service: the arrivals are untouched *)
    split; cbn [account_event people_awaiting_time waiting_persons events
      actual_time is_ARRIVE snd fst EventType_eqb]; fold p; fold w.
    + exact Hline.
    + rewrite Hperm in Hpend.
      rewrite filter_cons_False in Hpend by (cbn; congruence).
      exact Hpend.
    + intros i x Hx. eapply Qle_trans; [apply (Hstart i x Hx)|exact Hnow].
    + exact Horder.
Qed.

Lemma served_fifo self n g0 s s' :
  day_facts self n g0 s -> fifo_inv self n g0 s ->
  served self s (Ok s') -> fifo_inv self n g0 s'.
Proof.
  intros Hf Hff Hadm.
  inversion Hadm as [Hcase|person waiting q Hfree Hwait Hsd Hq Hperm| |]; subst;
    [exact Hff|].
  destruct Hff as [Hline Hpend Hstart Horder].
  pose proof (df_line_past _ _ _ _ Hf) as Hpast.
  rewrite Hwait in *. apply Forall_cons in Hpast as [Hperson _].
  pose proof (Hline 0%nat person eq_refl) as Hhead.
  rewrite Nat.add_0_r in Hhead.
  set (p := length (people_awaiting_time s)) in *.
  assert (Hnew : forall i x,
    (people_awaiting_time s ++ [(actual_time s - person)%Q]) !! i = Some x ->
    (x + inject_Z (arrival self g0 i) <= actual_time s)%Q /\
    ((i < p)%nat /\ people_awaiting_time s !! i = Some x \/
     i = p /\ (x + inject_Z (arrival self g0 i) == actual_time s)%Q)).
  { intros i x Hx. apply lookup_snoc_Some in Hx as [[Hi Hx]|[-> <-]].
    - split; [apply (Hstart i x Hx)|]. left. auto.
    - fold p. rewrite Hhead. split; [lra|]. right. split; [reflexivity|ring]. }
  split; cbn [start_service people_awaiting_time waiting_persons events
    actual_time].
  - intros i x Hx. rewrite length_app. cbn [length]. fold p.
    replace (p + 1 + i)%nat with (p + S i)%nat by lia.
    apply Hline. exact Hx.
  - rewrite length_app. cbn [length] in *. fold p.
    rewrite Hperm, filter_app.
    unfold service_end at 1.
    rewrite filter_cons_False by (cbn; congruence).
    rewrite filter_nil, app_nil_r.
    replace (p + 1 + length waiting)%nat with (p + S (length waiting))%nat by lia.
    exact Hpend.
  - intros i x Hx. apply (Hnew i x Hx).
  - intros i j x y Hij Hx Hy.
    destruct (Hnew i x Hx) as [Hxs [[Hi Hx']|[-> Hxe]]],
             (Hnew j y Hy) as [Hys [[Hj Hy']|[-> Hye]]].
    + apply (Horder i j); assumption.
    + rewrite Hye. exact Hxs.
    + lia.
    + rewrite Hxe, Hye. apply Qle_refl.
Qed.

Lemma day_steps_fifo self n g0 s s' :
  day_steps self s s' ->
  day_inv self s -> served_if_free s -> served_or_fresh s ->
  day_facts self n g0 s -> fifo_inv self n g0 s -> fifo_inv self n g0 s'.
Proof.
  induction 1 as [s|s s1 s2 Hne Hit Hsteps IH];
    intros Hinv Hsif Hsof Hf Hff; [exact Hff|].
  pose proof (day_iteration_run self s Hinv Hne) as Hrun. rewrite Hit in Hrun.
  destruct Hrun as (ev & q & Hperm & Hmin & Hq & _ & Hadm & Hinv1 & Hsif1).
  apply IH; auto.
  - left. apply (day_iteration_served self s); auto.
  - apply (day_iteration_facts self n g0 s); auto.
  - apply (served_fifo self n g0 (account_event s ev q) s1).
    + apply account_event_facts; assumption.
    + apply account_event_fifo; assumption.
    + exact Hadm.
Qed.

Lemma filter_all (h : list Event) k :
  Forall (fun e => snd e = k) h -> filter (fun e => snd e = k) h = h.
Proof.
  induction 1 as [|e h He _ IH]; [reflexivity|].
  rewrite filter_cons_True by exact He. rewrite IH. reflexivity.
Qed.

(** X17. Persons are served in the order in which they arrive: on a day
    that [run_day] completes, the [i]-th waiting time recorded is counted
    from the [i]-th arrival, so that adding the two gives the time at
    which that person's service starts; these starts follow each other in
    time, none before the arrival it belongs to and none after the final
    clock. *)
Theorem first_come_first_served fuel self g s :
  run_day fuel self g = Ok s ->
  forall i j x y,
    (i <= j)%nat ->
    people_awaiting_time s !! i = Some x ->
    people_awaiting_time s !! j = Some y ->
    (inject_Z (arrival self g i) <= x + inject_Z (arrival self g i))%Q /\
    (x + inject_Z (arrival self g i) <= y + inject_Z (arrival self g j))%Q /\
    (y + inject_Z (arrival self g j) <= actual_time s)%Q.
Proof.
  intros Hrun i j x y Hij Hx Hy.
  apply run_day_Ok in Hrun as ((arrives & g' & Hgen & Hsteps) & _ & _).
  apply _generate_arrives_Ok in Hgen as (_ & n & _ & Hbelow & _ & -> & ->).
  destruct (arrival_queue_ok self g n Hbelow) as [Hheap Hall].
  destruct (day_start_inv self _ (advance_n (S n) g) Hheap Hall) as [Hinv Hsif].
  assert (Hkinds : Forall (fun e => snd e = ARRIVE) (arrival_queue self g n)).
  { eapply Forall_impl; [exact Hall|]. intros e [Hk _]. exact Hk. }
  assert (Hsof : served_or_fresh
                   (day_start (arrival_queue self g n) (advance_n (S n) g))).
  { right. repeat apply conj; auto. }
  pose proof (day_start_facts self g n Hbelow) as Hf0.
  assert (Hff0 : fifo_inv self n g
                   (day_start (arrival_queue self g n) (advance_n (S n) g))).
  { split; cbn [day_start people_awaiting_time waiting_persons events
      actual_time length]; try discriminate.
    rewrite filter_all by exact Hkinds. cbn [Nat.add].
    rewrite Nat.sub_0_r. reflexivity. }
  pose proof (day_steps_facts self n g _ _ Hsteps Hinv Hsif Hsof Hf0) as Hf.
  pose proof (day_steps_fifo self n g _ _ Hsteps Hinv Hsif Hsof Hf0 Hff0)
    as [_ _ Hstart Horder].
  pose proof (df_waits _ _ _ _ Hf) as Hwaits. rewrite Forall_lookup in Hwaits.
  pose proof (Hwaits i x Hx).
  repeat apply conj.
  - lra.
  - apply (Horder i j); assumption.
  - apply (Hstart j y Hy).
Qed.

Lemma first_come_first_served_witness :
  exists s,
    run_day 10 desk tied_arrivals = Ok s /\
    people_awaiting_time s = [0%Q; 600%Q] /\
    (0 + inject_Z (arrival desk tied_arrivals 0)
     <= 600 + inject_Z (arrival desk tied_arrivals 1))%Q.
Proof.
  assert (Hrun : exists s, run_day 10 desk tied_arrivals = Ok s /\
                           people_awaiting_time s = [0%Q; 600%Q]).
  { eexists. split; [vm_compute; reflexivity|reflexivity]. }
  destruct Hrun as (s & Hrun & Hpeople).
  exists s. split; [exact Hrun|]. split; [exact Hpeople|].
  apply (first_come_first_served 10 desk tied_arrivals s Hrun 0 1 0%Q 600%Q);
    [lia|rewrite Hpeople; reflexivity|rewrite Hpeople; reflexivity].
Defined.

(** ** Waiting time and line length *)
















